(** * image-build: tag selection, deep merge, rendering and the build loop

    A shallow embedding of [docker-build.py] (classes [Utils],
    [TagCandidate], [BuildVariant], [Build], [Builder]) and the
    properties its specification states about it.

    The program is read as Python 3: a [dict] keeps its keys in insertion
    order, and an assignment to a key that is present leaves the key where
    it is.  Mutable objects that several names share ([self.variables] and
    [build_variables], the default value of [exclude], the dicts given to
    [merge_dict]) are modelled as shared state.  Unbounded recursion is
    given a depth, and a call that needs more than it is given is
    [Unfinished]; under the recursion limit of the interpreter such a
    call raises [RecursionError].  The libraries ([re], [jinja2], [yaml], [docker],
    [tarfile], the file system, the clock) are parameters, apart from the
    fragment of Jinja2 that the rendering claims need, which is
    modelled. *)

From Stdlib Require Import List String Ascii Bool Arith ZArith Lia DecimalString.
Import ListNotations.
Open Scope string_scope.
Open Scope list_scope.

(** * Part I: the program *)

(** ** Python values

    Configuration trees are what [yaml.load] returns: scalars, sequences
    and mappings.  A mapping is a Python [dict]: keys are unique and keep
    their insertion order, hence an association list.  Floats are left
    out. *)

#[local] Unset Elimination Schemes.
Inductive value : Type :=
| VNone
| VBool (b : bool)
| VInt (z : Z)
| VStr (s : string)
| VList (l : list value)
| VDict (d : list (string * value)).
#[local] Set Elimination Schemes.

Definition dict := list (string * value).

Module Dict.

Section Ops.
Context {V : Type}.

(** [d.get(key)] / [key in d] / [d[key]] *)
Fixpoint lookup (key : string) (d : list (string * V)) : option V :=
  match d with
  | [] => None
  | (k, v) :: rest => if String.eqb key k then Some v else lookup key rest
  end.

Definition mem (key : string) (d : list (string * V)) : bool :=
  match lookup key d with Some _ => true | None => false end.

(** [d[key] = v] on a key that is present: the entry keeps its place. *)
Fixpoint replace (key : string) (v : V) (d : list (string * V))
  : list (string * V) :=
  match d with
  | [] => []
  | (k, w) :: rest =>
      if String.eqb key k then (k, v) :: rest
      else (k, w) :: replace key v rest
  end.

(** [d[key] = v]: update in place, or append a new entry at the end. *)
Definition set (key : string) (v : V) (d : list (string * V))
  : list (string * V) :=
  if mem key d then replace key v d else d ++ [(key, v)].

Definition keys (d : list (string * V)) : list string := map fst d.

(** [d.copy()]: a new dict with the same entries. *)
Definition copy (d : list (string * V)) : list (string * V) := d.
End Ops.

End Dict.

(** Python's [==] on values: [bool] is a subclass of [int]
    ([True == 1]); sequences compare element by element; mappings compare
    as sets of entries whatever their insertion order. *)
Fixpoint py_eq (x y : value) {struct x} : bool :=
  match x, y with
  | VNone, VNone => true
  | VBool a, VBool b => Bool.eqb a b
  | VBool a, VInt z => Z.eqb (Z.b2z a) z
  | VInt z, VBool b => Z.eqb z (Z.b2z b)
  | VInt a, VInt b => Z.eqb a b
  | VStr a, VStr b => String.eqb a b
  | VList l1, VList l2 =>
      (fix seq_eq (l1 l2 : list value) {struct l1} : bool :=
         match l1, l2 with
         | [], [] => true
         | a :: l1', b :: l2' => py_eq a b && seq_eq l1' l2'
         | _, _ => false
         end) l1 l2
  | VDict d1, VDict d2 =>
      Nat.eqb (List.length d1) (List.length d2) &&
      (fix entries_in (d : list (string * value)) {struct d} : bool :=
         match d with
         | [] => true
         | (k, v) :: d' =>
             match Dict.lookup k d2 with
             | Some v' => py_eq v v'
             | None => false
             end && entries_in d'
         end) d1
  | _, _ => false
  end.

Definition is_dict (v : value) : bool :=
  match v with VDict _ => true | _ => false end.

(** ** Utils.merge_dict

    [merge_dict] recurses on values taken out of [b]; the recursion is
    written on the value [VDict b] so that it is structural. *)
Fixpoint merge_into (a : dict) (b : value) {struct b} : dict :=
  match b with
  | VDict bd =>
      (fix for_key (bd : list (string * value)) (result : dict) {struct bd}
         : dict :=
         match bd with
         | [] => result
         | (key, bv) :: rest =>
             for_key rest
               match Dict.lookup key result with
               | Some rv =>
                   match rv, bv with
                   | VDict rd, VDict _ =>
                       Dict.replace key (VDict (merge_into rd bv)) result
                   | _, _ =>
                       if py_eq rv bv then result
                       else Dict.replace key bv result
                   end
               | None => result ++ [(key, bv)]
               end
         end) bd (Dict.copy a)
  | _ => Dict.copy a
  end.

Definition merge_dict (a b : dict) : dict := merge_into a (VDict b).

(** One turn of the [for key in b] loop. *)
Definition merge_key (result : dict) (kb : string * value) : dict :=
  let '(key, bv) := kb in
  match Dict.lookup key result with
  | Some rv =>
      match rv, bv with
      | VDict rd, VDict bd => Dict.replace key (VDict (merge_dict rd bd)) result
      | _, _ => if py_eq rv bv then result else Dict.replace key bv result
      end
  | None => result ++ [(key, bv)]
  end.

(** ** The same function on a store of objects

    [merge_dict] works on Python objects: [a.copy()] is a shallow copy,
    so the result shares the nested objects of [a] and [b], and
    [result[key] = ...] writes into an object.  The store below holds the
    mutable objects (dicts and lists); a value is an immutable scalar or
    a reference into the store. *)

Module Store.

Definition loc := nat.

Inductive pyval : Type :=
| PNone
| PBool (b : bool)
| PInt (z : Z)
| PStr (s : string)
| PRef (l : loc).

Inductive obj : Type :=
| ODict (d : list (string * pyval))
| OList (l : list pyval).

Definition heap := list obj.

Definition obj_vals (o : obj) : list pyval :=
  match o with
  | ODict d => map snd d
  | OList l => l
  end.

Fixpoint update {A} (l : list A) (i : nat) (x : A) : list A :=
  match l, i with
  | [], _ => []
  | _ :: l', O => x :: l'
  | y :: l', S i' => y :: update l' i' x
  end.

(** A new object gets the next free location. *)
Definition alloc (h : heap) (o : obj) : heap * loc :=
  (h ++ [o], List.length h).

Definition get_dict (h : heap) (l : loc) : option (list (string * pyval)) :=
  match nth_error h l with
  | Some (ODict d) => Some d
  | _ => None
  end.

(** [obj[key] = v] on the dict object at [l] *)
Definition setitem (h : heap) (l : loc) (key : string) (v : pyval)
  : option heap :=
  match get_dict h l with
  | Some d => Some (update h l (ODict (Dict.set key v d)))
  | None => None
  end.

(** [isinstance(v, dict)] *)
Definition isinstance_dict (h : heap) (v : pyval) : bool :=
  match v with
  | PRef l => match nth_error h l with Some (ODict _) => true | _ => false end
  | _ => false
  end.

Definition scalar_eq (x y : pyval) : bool :=
  match x, y with
  | PNone, PNone => true
  | PBool a, PBool b => Bool.eqb a b
  | PBool a, PInt z => Z.eqb (Z.b2z a) z
  | PInt z, PBool b => Z.eqb z (Z.b2z b)
  | PInt a, PInt b => Z.eqb a b
  | PStr a, PStr b => String.eqb a b
  | _, _ => false
  end.

Section Compare.
Variable eq : pyval -> pyval -> option bool.

Fixpoint seq_eq (xs ys : list pyval) : option bool :=
  match xs, ys with
  | [], [] => Some true
  | x :: xs', y :: ys' =>
      match eq x y with
      | Some true => seq_eq xs' ys'
      | r => r
      end
  | _, _ => Some false
  end.

Fixpoint entries_in (yd xd : list (string * pyval)) : option bool :=
  match xd with
  | [] => Some true
  | (k, x) :: xd' =>
      match Dict.lookup k yd with
      | Some y =>
          match eq x y with
          | Some true => entries_in yd xd'
          | r => r
          end
      | None => Some false
      end
  end.
End Compare.

(** [x == y]; [fuel] bounds the nesting of the objects compared, and
    [None] stands for a comparison that did not finish within it. *)
Fixpoint py_eq (fuel : nat) (h : heap) (x y : pyval) : option bool :=
  match x, y with
  | PRef p, PRef q =>
      match fuel with
      | O => None
      | S n =>
          match nth_error h p, nth_error h q with
          | Some (OList xs), Some (OList ys) => seq_eq (py_eq n h) xs ys
          | Some (ODict xd), Some (ODict yd) =>
              if Nat.eqb (List.length xd) (List.length yd)
              then entries_in (py_eq n h) yd xd
              else Some false
          | Some _, Some _ => Some false
          | _, _ => None
          end
      end
  | PRef _, _ | _, PRef _ => Some false
  | _, _ => Some (scalar_eq x y)
  end.

Section MergeLoop.
(** The recursive call and the comparison, both bounded by the fuel
    of the caller. *)
Variable rec : heap -> loc -> loc -> option (heap * loc).
Variable eq : heap -> pyval -> pyval -> option bool.
Variables result b : loc.

(** The body of [for key in b]. *)
Definition merge_key (h : heap) (key : string) : option heap :=
  match get_dict h result, get_dict h b with
  | Some rd, Some bd =>
      match Dict.lookup key bd with
      | Some bv =>
          match Dict.lookup key rd with
          | Some rv =>                           (* key in result *)
              if isinstance_dict h rv && isinstance_dict h bv then
                match rv, bv with
                | PRef p, PRef q =>
                    match rec h p q with
                    | Some (h', m) => setitem h' result key (PRef m)
                    | None => None
                    end
                | _, _ => None
                end
              else
                match eq h rv bv with
                | Some true => Some h            (* same leaf value *)
                | Some false => setitem h result key bv
                | None => None
                end
          | None => setitem h result key bv
          end
      | None => None
      end
  | _, _ => None
  end.

Fixpoint for_key (ks : list string) (h : heap) : option heap :=
  match ks with
  | [] => Some h
  | key :: rest =>
      match merge_key h key with
      | Some h' => for_key rest h'
      | None => None
      end
  end.
End MergeLoop.

(** [Utils.merge_dict(a, b)] on the dict objects at [a] and [b].  The
    [path] argument of the source is only passed along and never read;
    it is left out.  [fuel] bounds the depth of the recursion, and
    [None] stands for a call that did not return within it (or that
    was given something else than two dicts). *)
Fixpoint merge_dict (fuel : nat) (h : heap) (a b : loc)
  : option (heap * loc) :=
  match fuel with
  | O => None
  | S n =>
      match get_dict h a, get_dict h b with
      | Some ad, Some bd =>
          (* result = a.copy() *)
          let '(h0, result) := alloc h (ODict (Dict.copy ad)) in
          match
            for_key (merge_dict n) (py_eq n) result b (Dict.keys bd) h0
          with
          | Some h' => Some (h', result)
          | None => None
          end
      | _, _ => None
      end
  end.

(** Reading a tree out of the store: [reads h t x] holds when the value
    [x] denotes the tree [t] in [h]. *)
Fixpoint reads (h : heap) (t : value) (x : pyval) {struct t} : bool :=
  match t, x with
  | VNone, PNone => true
  | VBool a, PBool b => Bool.eqb a b
  | VInt a, PInt b => Z.eqb a b
  | VStr a, PStr b => String.eqb a b
  | VList l, PRef p =>
      match nth_error h p with
      | Some (OList xs) =>
          (fix go (l : list value) (xs : list pyval) {struct l} : bool :=
             match l, xs with
             | [], [] => true
             | t :: l', x :: xs' => reads h t x && go l' xs'
             | _, _ => false
             end) l xs
      | _ => false
      end
  | VDict d, PRef p =>
      match nth_error h p with
      | Some (ODict xd) =>
          (fix go (d : list (string * value)) (xd : list (string * pyval))
             {struct d} : bool :=
             match d, xd with
             | [], [] => true
             | (k, t) :: d', (k', x) :: xd' =>
                 String.eqb k k' && reads h t x && go d' xd'
             | _, _ => false
             end) d xd
      | _ => false
      end
  | _, _ => false
  end.

(** No object of the store holds a dangling reference. *)
Definition closed (h : heap) : bool :=
  forallb
    (fun o =>
       forallb
         (fun v =>
            match v with
            | PRef l => Nat.ltb l (List.length h)
            | _ => true
            end) (obj_vals o)) h.

End Store.

(** ** Outcomes of Python calls *)

(** The exceptions the program meets. *)
Inductive build_reason : Type :=
| ReasonText (msg : string)          (* BuildError('...') *)
| ReasonError (msg : string)         (* BuildError(event['error']) *)
| ReasonLastEvent.                   (* BuildError(event, events) *)

Inductive exn : Type :=
| TemplateSyntaxError
| UndefinedError (name : string)
| NotModelled                        (* Jinja syntax outside the fragment below *)
| BuildError (reason : build_reason)
| UnboundLocalError (name : string)
| DockerException (msg : string)
| KeyError (key : string)
| TypeError
| AttributeError
| RecursionError                     (* maximum recursion depth exceeded *)
| OtherError.

(** A call returns, raises, or has not finished within the recursion
    depth it was given. *)
Inductive res (A : Type) : Type :=
| Val (a : A)
| Exn (e : exn)
| Unfinished.
Arguments Val {A} a.
Arguments Exn {A} e.
Arguments Unfinished {A}.

Definition res_bind {A B} (r : res A) (k : A -> res B) : res B :=
  match r with
  | Val a => k a
  | Exn e => Exn e
  | Unfinished => Unfinished
  end.

Definition finished {A} (r : res A) : bool :=
  match r with Unfinished => false | _ => true end.

(** ** The fragment of Jinja2 the program relies on

    Templates are literal text and [{{ name.attr... }}] expressions,
    where the name is a variable and the attributes are items of
    mappings.  Statements, comments, filters, constants, globals, the
    attributes that Python objects have of their own and other
    expressions are not modelled: [NotModelled] is the answer on
    them. *)

Module Jinja.

Inductive node : Type :=
| Data (text : string)
| Output (name : string) (attrs : list string).

Definition ast := list node.

Inductive undefined_kind : Type := Undefined | StrictUndefined.

Record Environment : Type := { undefined : undefined_kind }.

(** A compiled template belongs to the environment that compiled it. *)
Record Template : Type := { environment : Environment; body : ast }.

(** The environment shared by templates made with [Template(source)]. *)
Definition default_environment : Environment := {| undefined := Undefined |}.

Definition is_space (c : ascii) : bool :=
  let n := nat_of_ascii c in
  Nat.eqb n 32 || Nat.eqb n 9 || Nat.eqb n 10 || Nat.eqb n 13.

Definition is_ident_start (c : ascii) : bool :=
  let n := nat_of_ascii c in
  (Nat.leb 65 n && Nat.leb n 90) || (Nat.leb 97 n && Nat.leb n 122)
  || Nat.eqb n 95.

Definition is_ident_char (c : ascii) : bool :=
  let n := nat_of_ascii c in
  is_ident_start c || (Nat.leb 48 n && Nat.leb n 57).

Fixpoint ltrim (s : string) : string :=
  match s with
  | String c rest => if is_space c then ltrim rest else s
  | EmptyString => EmptyString
  end.

Fixpoint rtrim (s : string) : string :=
  match s with
  | String c rest =>
      match rtrim rest with
      | EmptyString => if is_space c then EmptyString else String c EmptyString
      | r => String c r
      end
  | EmptyString => EmptyString
  end.

Fixpoint all_chars (p : ascii -> bool) (s : string) : bool :=
  match s with
  | String c rest => p c && all_chars p rest
  | EmptyString => true
  end.

Definition is_identifier (s : string) : bool :=
  match s with
  | String c rest => is_ident_start c && all_chars is_ident_char rest
  | EmptyString => false
  end.

(** Splitting at the dots. *)
Fixpoint split_dots (s : string) (cur : string) : list string :=
  match s with
  | String c rest =>
      if Ascii.eqb c "."%char then cur :: split_dots rest EmptyString
      else split_dots rest (cur ++ String c EmptyString)%string
  | EmptyString => [cur]
  end.

(** Names that an expression does not look up in the variables: the
    constants, the words of the expression grammar, the globals of the
    default environment and the template's own [self].  Expressions
    that start with one of them are outside the fragment. *)
Definition reserved_names : list string :=
  ["true"; "false"; "none"; "True"; "False"; "None";
   "and"; "or"; "not"; "in"; "is"; "if"; "else";
   "range"; "dict"; "lipsum"; "cycler"; "joiner"; "namespace";
   "self"].

Definition is_reserved (name : string) : bool :=
  existsb (String.eqb name) reserved_names.

(** The text between [{{] and [}}]. *)
Definition parse_expression (e : string) : res node :=
  match rtrim (ltrim e) with
  | EmptyString => Exn TemplateSyntaxError
  | e' =>
      match split_dots e' EmptyString with
      | name :: attrs =>
          if is_identifier name && forallb is_identifier attrs
             && negb (is_reserved name)
          then Val (Output name attrs)
          else Exn NotModelled
      | [] => Exn NotModelled
      end
  end.

Definition emit (text : string) (nodes : ast) : ast :=
  match text with
  | EmptyString => nodes
  | _ => Data text :: nodes
  end.

(** The lexer: [expr] is [None] in literal text and holds what has been
    read of the expression after a [{{]. *)
Fixpoint lex (s : string) (text : string) (expr : option string) : res ast :=
  match expr with
  | None =>
      match s with
      | EmptyString => Val (emit text [])
      | String c1 rest1 =>
          if Ascii.eqb c1 "{"%char then
            match rest1 with
            | String c2 rest2 =>
                if Ascii.eqb c2 "{"%char then
                  res_bind (lex rest2 EmptyString (Some EmptyString))
                           (fun nodes => Val (emit text nodes))
                else if Ascii.eqb c2 "%"%char || Ascii.eqb c2 "#"%char then
                  Exn NotModelled
                else lex rest1 (text ++ String c1 EmptyString)%string None
            | EmptyString => Val (emit (text ++ String c1 EmptyString)%string [])
            end
          else lex rest1 (text ++ String c1 EmptyString)%string None
      end
  | Some e =>
      match s with
      | EmptyString => Exn TemplateSyntaxError
      | String c1 rest1 =>
          if Ascii.eqb c1 "}"%char then
            match rest1 with
            | String c2 rest2 =>
                if Ascii.eqb c2 "}"%char then
                  res_bind (parse_expression e) (fun n =>
                  res_bind (lex rest2 EmptyString None) (fun nodes =>
                  Val (n :: nodes)))
                else lex rest1 text (Some (e ++ String c1 EmptyString)%string)
            | EmptyString => Exn TemplateSyntaxError
            end
          else lex rest1 text (Some (e ++ String c1 EmptyString)%string)
      end
  end.

Definition newline : string := String (ascii_of_nat 10) EmptyString.

(** The lexer reads the line ends [\r\n] and [\r] as [\n]. *)
Fixpoint normalize_newlines (s : string) : string :=
  match s with
  | EmptyString => EmptyString
  | String c rest =>
      if Ascii.eqb c (ascii_of_nat 13) then
        match rest with
        | String c' rest' =>
            if Ascii.eqb c' (ascii_of_nat 10)
            then String (ascii_of_nat 10) (normalize_newlines rest')
            else String (ascii_of_nat 10) (normalize_newlines rest)
        | EmptyString => String (ascii_of_nat 10) EmptyString
        end
      else String c (normalize_newlines rest)
  end.

(** One newline at the end of a source is dropped
    ([keep_trailing_newline] is off). *)
Fixpoint strip_trailing_newline (s : string) : string :=
  match s with
  | EmptyString => EmptyString
  | String c rest =>
      match rest with
      | EmptyString =>
          if Ascii.eqb c (ascii_of_nat 10) then EmptyString else s
      | _ => String c (strip_trailing_newline rest)
      end
  end.

(** [env.parse(source)] *)
Definition parse (source : string) : res ast :=
  lex (strip_trailing_newline (normalize_newlines source)) EmptyString None.

(** [env.from_string(ast)] *)
Definition from_string (env : Environment) (a : ast) : Template :=
  {| environment := env; body := a |}.

(** [Template(source)] *)
Definition Template_new (source : string) : res Template :=
  res_bind (parse source) (fun a => Val (from_string default_environment a)).

(** [jinja2.meta.find_undeclared_variables(ast)]: the names the
    template looks up in its context. *)
Fixpoint find_undeclared_variables (a : ast) : list string :=
  match a with
  | [] => []
  | Data _ :: rest => find_undeclared_variables rest
  | Output name _ :: rest => name :: find_undeclared_variables rest
  end.

(** What an expression evaluates to: a value, or an undefined
    object. *)
Inductive resolved : Type :=
| Defined (v : value)
| Undef.

(** The attributes that every [dict] object has. *)
Definition dict_attributes : list string :=
  ["clear"; "copy"; "fromkeys"; "get"; "items"; "keys"; "pop"; "popitem";
   "setdefault"; "update"; "values"].

Definition is_dict_attribute (attr : string) : bool :=
  existsb (String.eqb attr) dict_attributes || String.prefix "__" attr.

(** [obj.attr] is [getattr(obj, attr)] and, when the object has no such
    attribute, [obj[attr]]; what neither finds is undefined.  An
    attribute of an undefined object is an error with either kind of
    undefined.  The attributes of the objects themselves (the methods
    of a [dict], anything on a scalar or a sequence) are outside the
    fragment: only the items of mappings are modelled. *)
Fixpoint getattrs (name : string) (r : resolved) (attrs : list string)
  : res resolved :=
  match attrs with
  | [] => Val r
  | attr :: rest =>
      match r with
      | Undef => Exn (UndefinedError name)
      | Defined (VDict d) =>
          if is_dict_attribute attr then Exn NotModelled else
          match Dict.lookup attr d with
          | Some v => getattrs attr (Defined v) rest
          | None => getattrs attr Undef rest
          end
      | Defined _ => Exn NotModelled
      end
  end.

(** [str(v)] for the scalars; printing a sequence or a mapping is not
    modelled. *)
Definition py_str (v : value) : res string :=
  match v with
  | VNone => Val "None"%string
  | VBool true => Val "True"%string
  | VBool false => Val "False"%string
  | VInt z => Val (DecimalString.NilZero.string_of_int (Z.to_int z))
  | VStr s => Val s
  | VList _ | VDict _ => Exn NotModelled
  end.

Definition render_node (env : Environment) (variables : dict) (n : node)
  : res string :=
  match n with
  | Data text => Val text
  | Output name attrs =>
      let root := match Dict.lookup name variables with
                  | Some v => Defined v
                  | None => Undef
                  end in
      res_bind (getattrs name root attrs) (fun r =>
      match r with
      | Defined v => py_str v
      | Undef =>
          match undefined env with
          | Undefined => Val EmptyString
          | StrictUndefined =>
              Exn (UndefinedError (last attrs name))
          end
      end)
  end.

Fixpoint render_nodes (env : Environment) (variables : dict) (a : ast)
  : res string :=
  match a with
  | [] => Val EmptyString
  | n :: rest =>
      res_bind (render_node env variables n) (fun s =>
      res_bind (render_nodes env variables rest) (fun s' =>
      Val (s ++ s')%string))
  end.

(** [template.render(variables)] *)
Definition render (t : Template) (variables : dict) : res string :=
  render_nodes (environment t) variables (body t).

End Jinja.

(** [Environment(undefined=StrictUndefined)] *)
Definition strict_environment : Jinja.Environment :=
  {| Jinja.undefined := Jinja.StrictUndefined |}.

(** ** Utils.render_template

    [fuel] is the depth of recursion allowed; [Unfinished] is the answer
    of a call that needs more. *)
Fixpoint render_template (fuel : nat) (template : Jinja.Template)
         (variables : dict) (env : option Jinja.Environment) : res string :=
  match fuel with
  | O => Unfinished
  | S n =>
      let _env := match env with
                  | None => strict_environment
                  | Some e => e
                  end in
      res_bind (Jinja.render template variables) (fun data =>
      res_bind (Jinja.parse data) (fun ast =>
      match Jinja.find_undeclared_variables ast with
      | _ :: _ =>
          let _template := Jinja.from_string _env ast in
          render_template n _template variables (Some _env)
      | [] => Val data
      end))
  end.


(** ** TagCandidate *)

Record TagCandidate : Type := {
  template : string;
  selectors : list string;
  only_primary : bool;
  negate : bool
}.

(** Truth value of [select], which is [None] or a string. *)
Definition truthy (select : option string) : bool :=
  match select with
  | Some (String _ _) => true
  | _ => false
  end.

Definition select_text (select : option string) : string :=
  match select with Some s => s | None => EmptyString end.

Section Selection.
(** [re.search(pattern, text)] finds a match. *)
Variable re_search : string -> string -> bool.

(** The [for selector in self.selectors] loop of [selected]. *)
Fixpoint selected_loop (negate : bool) (selectors : list string)
         (select : string) : bool :=
  match selectors with
  | [] => negate
  | selector :: rest =>
      if re_search selector select then negb negate
      else selected_loop negate rest select
  end.

Definition selected (self : TagCandidate) (select : option string)
           (primary : bool) : bool :=
  if primary || Bool.eqb primary (only_primary self) then
    if truthy select && negb (Nat.eqb (List.length (selectors self)) 0) then
      selected_loop (negate self) (selectors self) (select_text select)
    else negb (negate self)
  else false.

End Selection.

(** [TagCandidate.render(variables)] *)
Definition TagCandidate_render (fuel : nat) (self : TagCandidate)
           (variables : dict) : res string :=
  res_bind (Jinja.Template_new (template self)) (fun t =>
  render_template fuel t variables None).

(** ** The world outside the program

    The libraries and services the program calls are taken as they are:
    the regular expressions of [re], the file system, the clock and the
    Docker engine. *)

(** One event of the engine's stream, as [json_stream] decodes it; the
    program reads these three keys. *)
Record engine_event : Type := {
  stream : option string;
  status : option string;
  error : option string
}.

(** A member of the build context. *)
Inductive member : Type :=
| FileMember (arcname path : string)
| DockerfileMember (content : string).

Definition archive := list member.

(** What opening and loading a YAML configuration file gives. *)
Inductive config_read : Type :=
| NoFile                       (* IOError: no config file present *)
| BadYaml                      (* yaml.YAMLError: printed, defaults kept *)
| Config (data : dict)         (* a mapping; [{}] also for an empty string *)
| NotMapping.                  (* [None] (an empty file), a number, a boolean
                                  or a non-empty string *)

Record World : Type := {
  (** [re.search(pattern, text)] finds a match *)
  re_search : string -> string -> bool;
  (** [yaml.load(open(path))] *)
  read_config : string -> config_read;
  (** [FileSystemLoader(directory)] has the template; [None] is
      [TemplateNotFound] *)
  get_template : string -> string -> option Jinja.ast;
  (** [os.path.isdir(path)] *)
  isdir : string -> bool;
  (** the lines of the file at [path], [None] when it does not exist *)
  read_lines : string -> option (list string);
  (** [docker.utils.build.exclude_paths(root, patterns)] *)
  exclude_paths : string -> list string -> list string;
  (** [datetime.datetime.now()], formatted, at the n-th reading *)
  now : nat -> string;
  (** the stream of [api.build] for a context *)
  engine_build : archive -> list engine_event;
  (** the stream of [api.push] for a repository *)
  engine_push : string -> list engine_event;
  (** [api.get_image] or the writing of the export fails *)
  save_fails : string -> bool
}.

(** [os.path.join(a, b)] *)
Definition path_join (a b : string) : string :=
  match b with
  | String "/" _ => b
  | _ =>
      match a with
      | EmptyString => b
      | _ =>
          if String.eqb (substring (String.length a - 1) 1 a) "/"
          then (a ++ b)%string
          else (a ++ "/" ++ b)%string
      end
  end.

(** [os.path.dirname], [sorted] on strings. *)
Fixpoint insert_sorted (s : string) (l : list string) : list string :=
  match l with
  | [] => [s]
  | x :: rest => if String.leb s x then s :: l else x :: insert_sorted s rest
  end.

Definition sorted (l : list string) : list string :=
  fold_right insert_sorted [] l.

Definition nonempty (s : string) : bool :=
  match s with EmptyString => false | _ => true end.

(** ** Tag definitions

    A tag definition is a mapping with the keys [template], [selectors],
    [only_primary] and [negate]; [TagCandidate( **tag )] takes it as
    keyword arguments. *)

Fixpoint strings_of (l : list value) : option (list string) :=
  match l with
  | [] => Some []
  | VStr s :: rest =>
      match strings_of rest with
      | Some ss => Some (s :: ss)
      | None => None
      end
  | _ => None
  end.

Definition known_keyword (k : string) : bool :=
  String.eqb k "template" || String.eqb k "selectors" ||
  String.eqb k "only_primary" || String.eqb k "negate".

(** [TagCandidate( **tag )]: a missing [template] or an unknown keyword
    is a [TypeError]; values of another type than the data model gives
    the keys are left out of the model ([TypeError] as well). *)
Definition TagCandidate_kw (tag : dict) : res TagCandidate :=
  if negb (forallb known_keyword (Dict.keys tag)) then Exn TypeError else
  match Dict.lookup "template" tag with
  | Some (VStr t) =>
      match
        match Dict.lookup "selectors" tag with
        | None => Some []
        | Some (VList l) => strings_of l
        | Some _ => None
        end,
        match Dict.lookup "only_primary" tag with
        | None => Some false
        | Some (VBool b) => Some b
        | Some _ => None
        end,
        match Dict.lookup "negate" tag with
        | None => Some false
        | Some (VBool b) => Some b
        | Some _ => None
        end
      with
      | Some sels, Some op, Some neg =>
          Val {| template := t; selectors := sels; only_primary := op;
                 negate := neg |}
      | _, _, _ => Exn TypeError
      end
  | _ => Exn TypeError
  end.

(** [tag['template']] *)
Definition tag_template (tag : dict) : res string :=
  match Dict.lookup "template" tag with
  | Some (VStr t) => Val t
  | Some _ => Exn TypeError
  | None => Exn (KeyError "template")
  end.

(** The loop [for tag in tags + config['tags']: self.tags[tag['template']]
    = TagCandidate( **tag )] of [BuildVariant.__init__]. *)
Fixpoint collect_tags (defs : list dict) (self_tags : list (string * TagCandidate))
  : res (list (string * TagCandidate)) :=
  match defs with
  | [] => Val self_tags
  | tag :: rest =>
      res_bind (TagCandidate_kw tag) (fun candidate =>
      res_bind (tag_template tag) (fun key =>
      collect_tags rest (Dict.set key candidate self_tags)))
  end.

Fixpoint dicts_of (l : list value) : option (list dict) :=
  match l with
  | [] => Some []
  | VDict d :: rest =>
      match dicts_of rest with
      | Some ds => Some (d :: ds)
      | None => None
      end
  | _ => None
  end.

(** ** BuildVariant *)

Module BuildVariant.

Record t : Type := {
  directory : string;
  config_file : option string;
  template_file : string;
  template : option Jinja.Template;
  tags : list (string * TagCandidate);
  variables : dict
}.

Section Methods.
Variable w : World.

(** What [data] holds after the attempt to read the configuration
    file (lines 151 to 166): [{}] unless the file was read. *)
Definition data (directory : string) (config_file : option string)
  : config_read :=
  match config_file with
  | Some f =>
      match read_config w (path_join directory f) with
      | BadYaml | NoFile => Config []
      | loaded => loaded
      end
  | None => Config []            (* no config file name provided *)
  end.

(** [BuildVariant.__init__].  A configuration that does not have
    the shape of the data model (a string under [template_file], a
    sequence of mappings under [tags], a mapping under [variables])
    is answered with [TypeError]; so is, by [merge_dict], a file
    that holds no mapping. *)
Definition init (directory : string) (config_file : option string)
           (template : option Jinja.Template) (template_file : string)
           (variables : dict) (tags : list dict) : res t :=
  match data directory config_file with
  | Config data =>
  let config :=
    merge_dict [("variables", VDict variables);
                ("template_file", VStr template_file);
                ("tags", VList [])] data in
  match Dict.lookup "tags" config, Dict.lookup "template_file" config,
        Dict.lookup "variables" config with
  | Some (VList l), Some (VStr template_file'), Some (VDict variables') =>
      match dicts_of l with
      | Some config_tags =>
          let config_tags :=
            map (fun tag => merge_dict tag [("only_primary", VBool false)])
                config_tags in
          res_bind (collect_tags (tags ++ config_tags) []) (fun self_tags =>
          Val {| directory := directory;
                 config_file := config_file;
                 template_file := template_file';
                 template :=
                   match get_template w directory template_file' with
                   | Some a =>
                       Some (Jinja.from_string strict_environment a)
                   | None => template
                   end;
                 tags := self_tags;
                 variables := variables' |})
      | None => Exn TypeError
      end
  | _, _, _ => Exn TypeError
  end
  | _ => Exn TypeError           (* [merge_dict]: [for key in b], [b[key]] *)
  end.

(** [files(exclude)]: the context files, and what the list object
    given as [exclude] holds when the call returns. *)
Definition files (self : t) (exclude : list string)
  : list string * list string :=
  let dockerignore := path_join (directory self) ".dockerignore" in
  let _exclude := exclude in
  let _exclude :=
    match config_file self with
    | Some (String c f) => _exclude ++ [String c f]
    | _ => _exclude ++ ["image-build.yml"]
    end in
  let _exclude := _exclude ++ [template_file self] in
  let _exclude :=
    match read_lines w dockerignore with
    | Some lines => _exclude ++ filter nonempty lines
    | None => _exclude
    end in
  (sorted (exclude_paths w (directory self) _exclude), _exclude).

Definition render_dockerfile (fuel : nat) (self : t) (variables : dict)
  : res string :=
  match template self with
  | Some template =>
      render_template fuel template
                      (merge_dict (BuildVariant.variables self) variables)
                      None
  | None => Exn AttributeError
  end.

(** The loop of [render_tags] over the keys of [self.tags]. *)
Fixpoint render_tags_loop (fuel : nat) (self : t) (keys : list string)
         (variables : dict) (select : option string) (primary : bool)
         (tags : list string) : res (list string) :=
  match keys with
  | [] => Val tags
  | tag :: rest =>
      match Dict.lookup tag (BuildVariant.tags self) with
      | Some candidate =>
          if selected (re_search w) candidate select primary then
            res_bind
              (TagCandidate_render fuel candidate
                 (merge_dict (BuildVariant.variables self) variables))
              (fun rendered =>
                 render_tags_loop fuel self rest variables select primary
                                  (tags ++ [rendered]))
          else
            render_tags_loop fuel self rest variables select primary tags
      | None => Exn (KeyError tag)
      end
  end.

Definition render_tags (fuel : nat) (self : t) (variables : dict)
           (select : option string) (primary : bool) : res (list string) :=
  render_tags_loop fuel self (Dict.keys (BuildVariant.tags self))
                   variables select primary [].
End Methods.

End BuildVariant.

(** ** Build *)

Module Build.

Record t : Type := {
  name : string;
  namespace : string;
  source_name : string;                (* source['name'] *)
  source_tags : list string;           (* source['tags'] *)
  source_primary : string;             (* source['primary'] *)
  root_dir : string;
  variants_dir : string;
  variants : list (string * BuildVariant.t)
}.

Section Init.
Variable w : World.

(** The loop [for name in self.source['tags']] of [__init__]. *)
Fixpoint add_variants (variants_dir : string)
         (root_template : option Jinja.Template) (variables : dict)
         (tags : list dict) (names : list string)
         (variants : list (string * BuildVariant.t))
  : res (list (string * BuildVariant.t)) :=
  match names with
  | [] => Val variants
  | name :: rest =>
      let variant_dir := path_join variants_dir name in
      if isdir w variant_dir then
        res_bind (BuildVariant.init w variant_dir (Some "image-build.yml")
                                    root_template "Dockerfile.j2"
                                    variables tags)
                 (fun v =>
                    add_variants variants_dir root_template variables tags
                                 rest (Dict.set name v variants))
      else
        add_variants variants_dir root_template variables tags rest variants
  end.

(** [Build.__init__]; [source] is the mapping of the manifest, whose
    [tags] are strings. *)
Definition init (name : string) (source : dict) (root_dir : string)
           (variants_dir : string) (namespace : string)
           (template_file : string) (variables : dict) (tags : list dict)
  : res t :=
  let source :=
    merge_dict [("name", VStr name); ("tags", VList [VStr "latest"])]
               source in
  match Dict.lookup "name" source, Dict.lookup "tags" source with
  | Some (VStr source_name), Some (VList l) =>
      match strings_of l with
      | Some source_tags =>
          match
            match Dict.lookup "primary" source with
            | None =>
                match source_tags with
                | first :: _ => Val first
                | [] => Exn OtherError          (* IndexError *)
                end
            | Some (VStr p) => Val p
            | Some _ => Exn TypeError
            end
          with
          | Val primary =>
              let variants_dir := path_join root_dir variants_dir in
              res_bind (BuildVariant.init w "." None None template_file
                                          variables tags)
                       (fun root =>
              res_bind (add_variants variants_dir
                                     (BuildVariant.template root)
                                     variables tags source_tags
                                     [(".", root)])
                       (fun variants =>
              Val {| name := name;
                     namespace := namespace;
                     source_name := source_name;
                     source_tags := source_tags;
                     source_primary := primary;
                     root_dir := root_dir;
                     variants_dir := variants_dir;
                     variants := variants |}))
          | Exn e => Exn e
          | Unfinished => Unfinished
          end
      | None => Exn TypeError
      end
  | _, _ => Exn TypeError
  end.
End Init.

End Build.

(** ** Builder

    What the program does to the world is recorded in a log: what it
    prints, the calls it makes to the engine, and the variable sets it
    hands to the rendering of tags and Dockerfiles. *)

Inductive event : Type :=
| Print (text : string)
| PrintFailure (text : string) (e : exn)
| RenderTags (variant : string) (variables : dict)
| RenderDockerfile (variant : string) (variables : dict)
| EngineBuild (context : archive)
| ImagesGet (image_id : string)
| ImageTag (image_id repository tag : string)
| EnginePush (repository : string)
| EngineSave (repository : string).

(** The objects that outlive a call: [self.variables] of the Builder,
    which [build_variables] is another name of; the list that is the
    default value of the [exclude] parameter of [BuildVariant.files];
    the clock; the log. *)
Record state : Type := {
  self_variables : dict;
  files_defaults : list string;
  clock : nat;
  log : list event
}.

Definition M (A : Type) : Type := state -> res A * state.

Definition ret {A} (a : A) : M A := fun s => (Val a, s).

Definition bind {A B} (m : M A) (k : A -> M B) : M B :=
  fun s =>
    match m s with
    | (Val a, s') => k a s'
    | (Exn e, s') => (Exn e, s')
    | (Unfinished, s') => (Unfinished, s')
    end.

Definition raise {A} (e : exn) : M A := fun s => (Exn e, s).

Definition lift {A} (r : res A) : M A := fun s => (r, s).

(** [try: m except <handles>: handler] *)
Definition try_except {A} (m : M A) (handles : exn -> bool)
           (handler : exn -> M A) : M A :=
  fun s =>
    match m s with
    | (Exn e, s') => if handles e then handler e s' else (Exn e, s')
    | r => r
    end.

Declare Scope monad_scope.
Delimit Scope monad_scope with monad.
Notation "x <- m ;; k" := (bind m (fun x => k))
  (at level 61, m at next level, right associativity) : monad_scope.
Notation "m ;;; k" := (bind m (fun _ => k))
  (at level 61, right associativity) : monad_scope.
Open Scope monad_scope.

Definition emit (e : event) : M unit :=
  fun s =>
    (Val tt, {| self_variables := self_variables s;
                files_defaults := files_defaults s;
                clock := clock s;
                log := log s ++ [e] |}).

Definition print (text : string) : M unit := emit (Print text).

Definition get_variables : M dict := fun s => (Val (self_variables s), s).

(** [build_variables[key] = v] *)
Definition set_variable (key : string) (v : value) : M unit :=
  fun s =>
    (Val tt, {| self_variables := Dict.set key v (self_variables s);
                files_defaults := files_defaults s;
                clock := clock s;
                log := log s |}).

(** [build_variables['_dest']['tags'] = tags] *)
Definition set_dest_tags (tags : list string) : M unit :=
  variables <- get_variables ;;
  match Dict.lookup "_dest" variables with
  | Some (VDict dest) =>
      set_variable "_dest"
                   (VDict (Dict.set "tags" (VList (map VStr tags)) dest))
  | Some _ => raise TypeError
  | None => raise (KeyError "_dest")
  end.

Definition read_clock (w : World) : M string :=
  fun s =>
    (Val (now w (clock s)),
     {| self_variables := self_variables s;
        files_defaults := files_defaults s;
        clock := S (clock s);
        log := log s |}).

(** [variant.files()], with the default value of [exclude]. *)
Definition files_default (w : World) (variant : BuildVariant.t)
  : M (list string) :=
  fun s =>
    let '(result, exclude) := BuildVariant.files w variant (files_defaults s) in
    (Val result, {| self_variables := self_variables s;
                    files_defaults := exclude;
                    clock := clock s;
                    log := log s |}).

(** ** Utils.tar, Utils.tar_dockerfile *)

Definition tar (root : string) (files : list string) (fileobj : option archive)
  : archive :=
  match fileobj with Some a => a | None => [] end
  ++ map (fun path => FileMember path (path_join root path)) files.

Definition tar_dockerfile (dockerfile : string) (tarfileobj : archive)
  : archive :=
  tarfileobj ++ [DockerfileMember dockerfile].

(** ** Builder.build_image *)

Definition is_hex (c : ascii) : bool :=
  let n := nat_of_ascii c in
  (Nat.leb 48 n && Nat.leb n 57) || (Nat.leb 97 n && Nat.leb n 102).

Fixpoint take_hex (s : string) : string :=
  match s with
  | String c rest => if is_hex c then String c (take_hex rest) else EmptyString
  | EmptyString => EmptyString
  end.

Fixpoint strip_prefix (p s : string) : option string :=
  match p, s with
  | EmptyString, _ => Some s
  | String a p', String b s' => if Ascii.eqb a b then strip_prefix p' s' else None
  | String _ _, EmptyString => None
  end.

(** [re.search(r'Successfully built ([0-9a-f]+)', s)]: the first group
    of the leftmost match. *)
(** The pattern matches at the start of [s]. *)
Definition match_built (s : string) : option string :=
  match strip_prefix "Successfully built " s with
  | Some rest =>
      match take_hex rest with
      | EmptyString => None
      | image_id => Some image_id
      end
  | None => None
  end.

Fixpoint search_built (s : string) : option string :=
  match match_built s with
  | Some image_id => Some image_id
  | None =>
      match s with
      | String _ rest => search_built rest
      | EmptyString => None
      end
  end.

(** [s.rstrip()], on the ASCII white space. *)
Definition is_whitespace (c : ascii) : bool :=
  let n := nat_of_ascii c in
  Nat.eqb n 32 || (Nat.leb 9 n && Nat.leb n 13) || (Nat.leb 28 n && Nat.leb n 31).

Fixpoint rstrip (s : string) : string :=
  match s with
  | String c rest =>
      match rstrip rest with
      | EmptyString => if is_whitespace c then EmptyString else String c EmptyString
      | r => String c r
      end
  | EmptyString => EmptyString
  end.

Section Builder.
Variable w : World.
(** The depth of recursion granted to each rendering. *)
Variable fuel : nat.

(** The [for line in self.builder.api.build(...)] loop.  Each line of
    the stream is taken to decode to one event. *)
Fixpoint build_image_lines (lines : list engine_event) : M unit :=
  match lines with
  | [] => ret tt
  | event :: rest =>
      match stream event, status event, error event with
      | Some s, _, _ => print ("    " ++ rstrip s)
      | None, Some s, _ => print ("    " ++ rstrip s)
      | None, None, Some e => raise (BuildError (ReasonError e))
      | None, None, None => ret tt
      end ;;;
      build_image_lines rest
  end.

(** [image_id] is a local name that is bound only by the assignment
    under [if match:]; [None] is the unbound name. *)
Definition build_image (dockerfileobj : archive) : M string :=
  print "  Docker build output:" ;;;
  emit (EngineBuild dockerfileobj) ;;;
  let response := engine_build w dockerfileobj in
  build_image_lines response ;;;
  let events := response in
  match events with
  | [] => raise (BuildError (ReasonText "Unknown build error"))
  | first :: _ =>
      let event := last events first in
      let image_id : option string :=
        match stream event with
        | Some s => search_built s
        | None => None
        end in
      match image_id with
      | Some image_id =>
          if nonempty image_id then ret image_id
          else raise (BuildError ReasonLastEvent)
      | None => raise (UnboundLocalError "image_id")
      end
  end.

Definition save_image (repository : string) : M unit :=
  emit (EngineSave repository) ;;;
  if save_fails w repository then raise OtherError else ret tt.

Fixpoint push_image_lines (lines : list engine_event) : M unit :=
  match lines with
  | [] => ret tt
  | event :: rest =>
      match status event, error event with
      | Some s, _ => print ("    " ++ s)
      | None, Some e => raise (DockerException e)
      | None, None => ret tt
      end ;;;
      push_image_lines rest
  end.

Definition push_image (repository : string) : M unit :=
  print "  Docker push output:" ;;;
  emit (EnginePush repository) ;;;
  push_image_lines (engine_push w repository).

End Builder.

Module Builder.

Record t : Type := {
  select : option string;
  push : bool;
  save : bool;
  dry_run : bool;
  ignore_empty : bool;
  builds : list Build.t
}.

Section Build.
Variable w : World.
Variable fuel : nat.
Variable self : t.

(** [variant.render_tags(build_variables, self.select, primary)] *)
Definition call_render_tags (key : string) (variant : BuildVariant.t)
           (primary : bool) : M (list string) :=
  build_variables <- get_variables ;;
  emit (RenderTags key build_variables) ;;;
  lift (BuildVariant.render_tags w fuel variant build_variables
                                 (select self) primary).

(** [variant.render_dockerfile(build_variables)] *)
Definition call_render_dockerfile (key : string) (variant : BuildVariant.t)
  : M string :=
  build_variables <- get_variables ;;
  emit (RenderDockerfile key build_variables) ;;;
  lift (BuildVariant.render_dockerfile fuel variant build_variables).

(** [build.variants[key]] *)
Definition variant_of (build : Build.t) (key : string) : M BuildVariant.t :=
  match Dict.lookup key (Build.variants build) with
  | Some v => ret v
  | None => raise (KeyError key)
  end.

Fixpoint tag_image (image_id repository : string) (tags : list string)
  : M unit :=
  match tags with
  | [] => ret tt
  | tag :: rest =>
      emit (ImageTag image_id repository tag) ;;;
      tag_image image_id repository rest
  end.

Definition indent (lines : list string) : string :=
  String.concat Jinja.newline (map (fun l => "      " ++ l)%string lines).

(** The report of a dry run.  The indentation of the lines of the
    Dockerfile is left out. *)
Definition dry_run_report (build : Build.t) (source_tag : string)
           (tags root_files files : list string) (dockerfile : string)
  : M unit :=
  print ("  Source: " ++ Build.source_name build ++ ":" ++ source_tag) ;;;
  print "    Tags:" ;;;
  print (indent tags) ;;;
  print "    Base files:" ;;;
  print (indent root_files) ;;;
  print "    Variant files:" ;;;
  print (indent files) ;;;
  print "    Dockerfile:" ;;;
  emit (Print dockerfile).

(** The body of [for source_tag in build.source['tags']].  It is given
    and gives back what the local names [root_excludes] and
    [has_applicable_tags] hold. *)
Definition source_tag_body (build : Build.t) (timestamp repository : string)
           (source_tag : string) (root_excludes : list string)
           (has_applicable_tags : bool) : M (list string * bool) :=
  (* build_variables = self.variables: one object under two names *)
  let primary := String.eqb source_tag (Build.source_primary build) in
  set_variable "_source"
    (VDict [("name", VStr (Build.source_name build));
            ("tag", VStr source_tag);
            ("primary", VBool primary)]) ;;;
  set_variable "_dest"
    (VDict [("name", VStr (Build.name build));
            ("namespace", VStr (Build.namespace build))]) ;;;
  set_variable "_timestamp" (VStr timestamp) ;;;
  root <- variant_of build "." ;;
  tags <- call_render_tags "." root primary ;;
  set_dest_tags tags ;;;
  dockerfile <- call_render_dockerfile "." root ;;
  (* root_files = build.variants['.'].files(root_excludes) *)
  let '(root_files, root_excludes) :=
    BuildVariant.files w root root_excludes in
  let context :=
    if dry_run self then None
    else Some (tar (BuildVariant.directory root) root_files None) in
  r <- match Dict.lookup source_tag (Build.variants build) with
       | Some variant =>
           tags <- call_render_tags source_tag variant primary ;;
           set_dest_tags tags ;;;
           set_variable "_base" (VStr dockerfile) ;;;
           dockerfile <- call_render_dockerfile source_tag variant ;;
           files <- files_default w variant ;;
           let context :=
             if dry_run self then context
             else Some (tar (BuildVariant.directory variant) files context) in
           ret (tags, dockerfile, files, context)
       | None => ret (tags, dockerfile, [], context)
       end ;;
  let '(tags, dockerfile, files, context) := r in
  let context :=
    if dry_run self then context
    else Some (tar_dockerfile dockerfile
                              match context with Some a => a | None => [] end) in
  if dry_run self then
    dry_run_report build source_tag tags root_files files dockerfile ;;;
    ret (root_excludes, has_applicable_tags)
  else
    match tags with
    | _ :: _ =>
        image_id <- build_image w match context with
                                  | Some a => a
                                  | None => []
                                  end ;;
        emit (ImagesGet image_id) ;;;
        tag_image image_id repository tags ;;;
        ret (root_excludes, true)
    | [] =>
        print ("  No applicable destination tags for source tag "
                 ++ source_tag ++ ", skipping build phase") ;;;
        ret (root_excludes, has_applicable_tags)
    end.

Fixpoint for_source_tags (build : Build.t) (timestamp repository : string)
         (source_tags : list string) (root_excludes : list string)
         (has_applicable_tags : bool) : M (list string * bool) :=
  match source_tags with
  | [] => ret (root_excludes, has_applicable_tags)
  | source_tag :: rest =>
      r <- source_tag_body build timestamp repository source_tag
                           root_excludes has_applicable_tags ;;
      for_source_tags build timestamp repository rest (fst r) (snd r)
  end.

Definition is_build_error (e : exn) : bool :=
  match e with BuildError _ => true | _ => false end.

Definition is_docker_exception (e : exn) : bool :=
  match e with DockerException _ | BuildError _ => true | _ => false end.

(** What follows the loop over the source tags; [Some b] stands for
    [return b]. *)
Definition after_source_tags (repository : string)
           (has_applicable_tags : bool) : M (option bool) :=
  if has_applicable_tags then
    r <- (if push self && negb (dry_run self) then
            try_except (push_image w repository ;;; ret None)
                       is_docker_exception
                       (fun err =>
                          emit (PrintFailure "Failed to push image: " err) ;;;
                          ret (Some false))
          else ret None) ;;
    match r with
    | Some b => ret (Some b)
    | None =>
        if save self && negb (dry_run self) then
          try_except (save_image w repository ;;; ret None)
                     (fun _ => true)
                     (fun err =>
                        emit (PrintFailure "Failed to push image: " err) ;;;
                        ret (Some false))
        else ret None
    end
  else if negb (ignore_empty self) then
    print "The build has no applicable destination for any source tag!" ;;;
    ret (Some false)
  else ret None.

(** The body of [for build in self.builds]. *)
Definition build_body (build : Build.t) (root_excludes : list string)
  : M (list string * option bool) :=
  timestamp <- read_clock w ;;
  let repository := path_join (Build.namespace build) (Build.name build) in
  print ("Build: " ++ Build.name build) ;;;
  print ("  Repository: " ++ repository ++ Jinja.newline) ;;;
  try_except
    (r <- for_source_tags build timestamp repository
                          (Build.source_tags build) root_excludes false ;;
     returned <- after_source_tags repository (snd r) ;;
     ret (fst r, returned))
    is_build_error
    (fun err =>
       emit (PrintFailure "Failed to build image: " err) ;;;
       ret (root_excludes, Some false)).

Fixpoint for_builds (builds : list Build.t) (root_excludes : list string)
  : M bool :=
  match builds with
  | [] => ret true
  | build :: rest =>
      r <- build_body build root_excludes ;;
      match snd r with
      | Some b => ret b
      | None => for_builds rest (fst r)
      end
  end.

(** The first loop of [build]. *)
Fixpoint collect_root_excludes (builds : list Build.t)
         (root_excludes : list string) : M (list string) :=
  match builds with
  | [] => ret root_excludes
  | build :: rest =>
      root <- variant_of build "." ;;
      collect_root_excludes
        rest
        (root_excludes ++ [Build.variants_dir build;
                           BuildVariant.template_file root])
  end.

Definition build : M bool :=
  root_excludes <- collect_root_excludes (builds self) [] ;;
  for_builds (builds self) root_excludes.
End Build.

End Builder.

(** * Part II: the notions the properties are stated with *)

(** ** Well-formed trees and induction over them *)

Section value_induction.
Variable P : value -> Prop.
Hypothesis HNone : P VNone.
Hypothesis HBool : forall b, P (VBool b).
Hypothesis HInt : forall z, P (VInt z).
Hypothesis HStr : forall s, P (VStr s).
Hypothesis HList : forall l, Forall P l -> P (VList l).
Hypothesis HDict : forall d, Forall (fun kv => P (snd kv)) d -> P (VDict d).

Fixpoint value_nested_ind (v : value) : P v :=
  match v with
  | VNone => HNone
  | VBool b => HBool b
  | VInt z => HInt z
  | VStr s => HStr s
  | VList l =>
      HList l
        ((fix go (l : list value) : Forall P l :=
            match l with
            | [] => Forall_nil P
            | x :: l' => Forall_cons x (value_nested_ind x) (go l')
            end) l)
  | VDict d =>
      HDict d
        ((fix go (d : list (string * value))
            : Forall (fun kv => P (snd kv)) d :=
            match d with
            | [] => Forall_nil _
            | kv :: d' =>
                Forall_cons kv (value_nested_ind (snd kv)) (go d')
            end) d)
  end.
End value_induction.

Fixpoint nodup_keys (ks : list string) : bool :=
  match ks with
  | [] => true
  | k :: rest => negb (existsb (String.eqb k) rest) && nodup_keys rest
  end.

(** A tree is a well-formed Python value when no mapping in it repeats a
    key. *)
Fixpoint wf (v : value) : bool :=
  match v with
  | VList l =>
      (fix all (l : list value) : bool :=
         match l with [] => true | x :: l' => wf x && all l' end) l
  | VDict d =>
      nodup_keys (map fst d) &&
      (fix all (d : list (string * value)) : bool :=
         match d with [] => true | (_, x) :: d' => wf x && all d' end) d
  | _ => true
  end.

Definition wf_dict (d : dict) : bool := wf (VDict d).

(** ** What [merge_dict] computes *)

(** The value left under a key that both operands have. *)
Definition merge_val (av bv : value) : value :=
  match av, bv with
  | VDict ad, VDict bd => VDict (merge_dict ad bd)
  | _, _ => if py_eq av bv then av else bv
  end.

Module StoreProps.
Import Store.

(** [h'] keeps every object of [h] as it is. *)
Definition preserves (h h' : heap) : Prop :=
  forall l o, nth_error h l = Some o -> nth_error h' l = Some o.

(** No object of [h] refers to [r]. *)
Definition unref (h : heap) (r : loc) : Prop :=
  forall p o, nth_error h p = Some o -> ~ In (PRef r) (obj_vals o).

Definition entry_reads (h : heap) (kt : string * value) (kx : string * pyval)
  : Prop :=
  fst kt = fst kx /\ reads h (snd kt) (snd kx) = true.

End StoreProps.

Module MergeProps.
Local Abbreviation tree_merge := merge_dict.
Local Abbreviation tree_eq := py_eq.
Import Store StoreProps.

Definition eq_refines (h : heap) (t1 : value) : Prop :=
  forall x t2 y,
    reads h t1 x = true -> reads h t2 y = true ->
    exists n0, forall n, n0 <= n -> Store.py_eq n h x y = Some (tree_eq t1 t2).

(** The state of the loop: [h] is the store [merge_dict] was called
    in, [r] the location of [result], [hc] the store now and [tres]
    the tree [result] has reached. *)
Record inv (h : heap) (r : loc) (hc : heap) (tres : dict) : Prop := {
  inv_closed : closed hc = true;
  inv_bound : r < List.length hc;
  inv_preserves : preserves h hc;
  inv_unref : forall l, l <= r -> unref h l -> unref hc l;
  inv_reads : reads hc (VDict tres) (PRef r) = true
}.

(** What a call started in [h] guarantees when it returns [r] in
    [h']. *)
Record post (h : heap) (t : dict) (h' : heap) (r : loc) : Prop := {
  post_closed : closed h' = true;
  post_fresh : List.length h <= r < List.length h';
  post_preserves : preserves h h';
  post_unref : forall l, l < List.length h -> unref h l -> unref h' l;
  post_reads : reads h' (VDict t) (PRef r) = true
}.

(** The store-level call on the objects of [ta] and [tb] returns the
    merge of the trees, whatever the store it is started in. *)
Definition merge_refines (tb : value) : Prop :=
  forall h a b ta bd,
    tb = VDict bd -> closed h = true -> wf tb = true ->
    reads h (VDict ta) (PRef a) = true -> reads h tb (PRef b) = true ->
    exists h' r,
      post h (tree_merge ta bd) h' r /\
      exists n0, forall n, n0 <= n -> Store.merge_dict n h a b = Some (h', r).

End MergeProps.

(** ** The comparison on the store computes [==] on the trees *)

Fixpoint py_seq_eq (l1 l2 : list value) : bool :=
  match l1, l2 with
  | [], [] => true
  | a :: l1', b :: l2' => py_eq a b && py_seq_eq l1' l2'
  | _, _ => false
  end.

Fixpoint py_entries_in (d2 d : dict) : bool :=
  match d with
  | [] => true
  | (k, v) :: d' =>
      match Dict.lookup k d2 with
      | Some v' => py_eq v v'
      | None => false
      end && py_entries_in d2 d'
  end.

Definition ex_store : Store.heap :=
  [ Store.ODict [("x", Store.PInt 1)];
    Store.ODict [("a", Store.PInt 1); ("n", Store.PRef 0)];
    Store.ODict [("y", Store.PInt 2)];
    Store.ODict [("n", Store.PRef 2); ("b", Store.PStr "s")] ].

Definition ex_tree_a : dict := [("a", VInt 1); ("n", VDict [("x", VInt 1)])].
Definition ex_tree_b : dict := [("n", VDict [("y", VInt 2)]); ("b", VStr "s")].

(** The truth table of the specification, with a matcher for ["^v"]. *)
Definition prefix_search (pattern text : string) : bool :=
  match pattern with
  | String "^" p => String.prefix p text
  | _ => false
  end.

(** ** Rendering: the number of passes *)





Definition self_reference_template : Jinja.Template :=
  Jinja.from_string Jinja.default_environment [Jinja.Output "x" []].



(** An event that reaches the Docker engine. *)
Definition is_engine_call (e : event) : bool :=
  match e with
  | EngineBuild _ | ImagesGet _ | ImageTag _ _ _ | EnginePush _ | EngineSave _ =>
      true
  | _ => false
  end.

(** ** A small world for examples *)

Definition example_world : World := {|
  re_search := prefix_search;
  read_config := fun _ => NoFile;
  get_template := fun _ _ => None;
  isdir := fun _ => false;
  read_lines := fun _ => None;
  exclude_paths := fun _ _ => [];
  now := fun _ => "20170101000000";
  engine_build := fun _ => [];
  engine_push := fun _ => [];
  save_fails := fun _ => false
|}.

Definition with_engine_build (w : World) (f : archive -> list engine_event)
  : World := {|
  re_search := re_search w;
  read_config := read_config w;
  get_template := get_template w;
  isdir := isdir w;
  read_lines := read_lines w;
  exclude_paths := exclude_paths w;
  now := now w;
  engine_build := f;
  engine_push := engine_push w;
  save_fails := save_fails w
|}.

Definition initial_state (variables : dict) : state := {|
  self_variables := variables;
  files_defaults := [];
  clock := 0;
  log := []
|}.

(** ** build_image: the end of the stream *)

Definition status_event (s : string) : engine_event :=
  {| stream := None; status := Some s; error := None |}.

Definition stream_event (s : string) : engine_event :=
  {| stream := Some s; status := None; error := None |}.

(** The success marker of the last event, if it has one. *)
Definition success_marker (events : list engine_event) : option string :=
  match events with
  | [] => None
  | first :: _ =>
      match stream (last events first) with
      | Some s => search_built s
      | None => None
      end
  end.

(** No event of the stream is an error event. *)
Definition no_error_event (events : list engine_event) : bool :=
  forallb (fun e => match stream e, status e, error e with
                    | None, None, Some _ => false
                    | _, _, _ => true
                    end) events.

(** ** Tag definitions that share a template *)

(** The first occurrences, in order. *)
Fixpoint keep_first (l : list string) : list string :=
  match l with
  | [] => []
  | x :: rest => x :: filter (fun y => negb (String.eqb y x)) (keep_first rest)
  end.

(** The last candidate of the list with template [t]. *)
Fixpoint last_with (t : string) (candidates : list TagCandidate)
  : option TagCandidate :=
  match candidates with
  | [] => None
  | c :: rest =>
      match last_with t rest with
      | Some c' => Some c'
      | None => if String.eqb t (template c) then Some c else None
      end
  end.

(** Rendering candidates one after the other. *)
Fixpoint render_each (fuel : nat) (variables : dict)
         (candidates : list TagCandidate) (tags : list string)
  : res (list string) :=
  match candidates with
  | [] => Val tags
  | c :: rest =>
      res_bind (TagCandidate_render fuel c variables) (fun rendered =>
      render_each fuel variables rest (tags ++ [rendered]))
  end.

(** The tag definitions of the variant's configuration file, as they
    are written in it. *)
Definition config_definitions (w : World) (directory : string)
           (config_file : option string) : list dict :=
  match BuildVariant.data w directory config_file with
  | Config data =>
      match Dict.lookup "tags" data with
      | Some (VList l) =>
          match dicts_of l with
          | Some ds => ds
          | None => []
          end
      | _ => []
      end
  | _ => []
  end.

(** The mapping read from the configuration file has no repeated
    key. *)
Definition config_wf (w : World) (directory : string)
           (config_file : option string) : bool :=
  match BuildVariant.data w directory config_file with
  | Config data => wf_dict data
  | _ => true
  end.

(** A candidate with [only_primary] set to [False]. *)
Definition config_candidate (c : TagCandidate) : TagCandidate :=
  {| template := template c; selectors := selectors c;
     only_primary := false; negate := negate c |}.

(** What a tag definition says: its template, its selectors (none when
    it has no [selectors]) and its two flags ([False] when absent). *)
Definition declared_template (tag : dict) : string :=
  match Dict.lookup "template" tag with
  | Some (VStr t) => t
  | _ => EmptyString
  end.

Definition declared_selectors (tag : dict) : list string :=
  match Dict.lookup "selectors" tag with
  | Some (VList l) =>
      match strings_of l with
      | Some sels => sels
      | None => []
      end
  | _ => []
  end.

Definition declared_flag (key : string) (tag : dict) : bool :=
  match Dict.lookup key tag with
  | Some (VBool b) => b
  | _ => false
  end.

Definition declared_candidate (tag : dict) : TagCandidate :=
  {| template := declared_template tag;
     selectors := declared_selectors tag;
     only_primary := declared_flag "only_primary" tag;
     negate := declared_flag "negate" tag |}.

(** The candidates of the definitions of a variant, in definition
    order: what the build-level definitions say, then what the
    definitions of the configuration file say, these without their
    [only_primary]. *)
Definition declared_candidates (w : World) (directory : string)
           (config_file : option string) (build_tags : list dict)
  : list TagCandidate :=
  map declared_candidate build_tags
  ++ map (fun raw => config_candidate (declared_candidate raw))
         (config_definitions w directory config_file).

(** A variant whose configuration file defines the template [latest]
    again, for the primary source tag only, after build-level
    definitions. *)
Definition tags_world : World := {|
  re_search := prefix_search;
  read_config := fun path =>
    if String.eqb path "variants/1.0/image-build.yml" then
      Config [("tags",
               VList [VDict [("template", VStr "latest");
                             ("selectors", VList [VStr "^v"]);
                             ("only_primary", VBool true)]])]
    else NoFile;
  get_template := fun _ _ => None;
  isdir := fun path => String.eqb path "variants/1.0";
  read_lines := fun _ => None;
  exclude_paths := fun _ _ => [];
  now := fun _ => "20170101000000";
  engine_build := fun _ => [];
  engine_push := fun _ => [];
  save_fails := fun _ => false
|}.

Definition tags_build_definitions : list dict :=
  [ [("template", VStr "latest")];
    [("template", VStr "{{ _source.tag }}"); ("negate", VBool true)] ].

Definition tags_variant : res BuildVariant.t :=
  BuildVariant.init tags_world "variants/1.0" (Some "image-build.yml") None
                    "Dockerfile.j2" [] tags_build_definitions.

Definition the_variant (r : res BuildVariant.t) : BuildVariant.t :=
  match r with
  | Val v => v
  | _ => {| BuildVariant.directory := ""; BuildVariant.config_file := None;
            BuildVariant.template_file := ""; BuildVariant.template := None;
            BuildVariant.tags := []; BuildVariant.variables := [] |}
  end.

(** ** Dry runs *)

Definition engine_calls (l : list event) : list event :=
  filter is_engine_call l.

(** A computation that only adds to the log. *)
Definition grows {A} (m : M A) : Prop :=
  forall s, exists evs, log (snd (m s)) = log s ++ evs.

(** A computation that makes no call to the engine. *)
Definition quiet {A} (m : M A) : Prop :=
  forall s, engine_calls (log (snd (m s))) = engine_calls (log s).

Definition skip_message (source_tag : string) : string :=
  "  No applicable destination tags for source tag "
    ++ source_tag ++ ", skipping build phase".

(** ** A manifest with two source tags and one override directory *)

Definition parsed (source : string) : option Jinja.ast :=
  match Jinja.parse source with
  | Val a => Some a
  | _ => None
  end.

Definition variant_world : World := {|
  re_search := prefix_search;
  read_config := fun _ => NoFile;
  get_template := fun directory name =>
    if String.eqb name "Dockerfile.j2" then
      if String.eqb directory "." then
        parsed "FROM {{ _source.name }}:{{ _source.tag }}"
      else if String.eqb directory "variants/1.0" then
        parsed "{{ _base }} # 1.0"
      else None
    else None;
  isdir := fun path => String.eqb path "variants/1.0";
  read_lines := fun _ => None;
  exclude_paths := fun _ _ => [];
  now := fun _ => "20170101000000";
  engine_build := fun _ => [stream_event "Successfully built 0123abcd"];
  engine_push := fun _ => [];
  save_fails := fun _ => false
|}.

Definition example_source : dict :=
  [("name", VStr "alpine"); ("tags", VList [VStr "1.0"; VStr "2.0"])].

(** The build as [Build.__init__] makes it, without and with a
    build-level tag. *)
Definition untagged_build : res Build.t :=
  Build.init variant_world "app" example_source "" "variants" "image-build"
             "Dockerfile.j2" [] [].

Definition tagged_build : res Build.t :=
  Build.init variant_world "app" example_source "" "variants" "image-build"
             "Dockerfile.j2" [] [[("template", VStr "latest")]].

Definition the_build (r : res Build.t) : Build.t :=
  match r with
  | Val b => b
  | _ => {| Build.name := ""; Build.namespace := ""; Build.source_name := "";
            Build.source_tags := []; Build.source_primary := "";
            Build.root_dir := ""; Build.variants_dir := "";
            Build.variants := [] |}
  end.

Definition real_run : Builder.t := {|
  Builder.select := None;
  Builder.push := false;
  Builder.save := false;
  Builder.dry_run := false;
  Builder.ignore_empty := false;
  Builder.builds := [the_build untagged_build]
|}.

(** ** The variable set across the turns of the loop *)

Definition dry_run_of (b : Build.t) : Builder.t := {|
  Builder.select := None;
  Builder.push := false;
  Builder.save := false;
  Builder.dry_run := true;
  Builder.ignore_empty := true;
  Builder.builds := [b]
|}.

(** ** The exclusion list of [files] *)

Definition listing_world : World := {|
  re_search := prefix_search;
  read_config := fun _ => NoFile;
  get_template := fun directory name =>
    if String.eqb name "Dockerfile.j2" && String.eqb directory "."
    then parsed "FROM {{ _source.name }}:{{ _source.tag }}"
    else None;
  isdir := fun path =>
    String.eqb path "variants/1.0" || String.eqb path "variants/2.0";
  read_lines := fun path =>
    if String.eqb path "variants/1.0/.dockerignore"
    then Some ["data"; ""]
    else None;
  exclude_paths := fun root patterns =>
    filter (fun f => negb (existsb (String.eqb f) patterns))
           (if String.eqb root "variants/1.0" then ["run.sh"; "data"; "cache"]
            else if String.eqb root "variants/2.0" then ["run.sh"; "data"]
            else ["setup.sh"; "Dockerfile.j2"; "image-build.yml"]);
  now := fun _ => "20170101000000";
  engine_build := fun _ => [stream_event "Successfully built 0123abcd"];
  engine_push := fun _ => [];
  save_fails := fun _ => false
|}.

Definition listing_build : res Build.t :=
  Build.init listing_world "app" example_source "" "variants" "image-build"
             "Dockerfile.j2" [] [[("template", VStr "latest")]].

Definition variant_named (key : string) (b : Build.t) : BuildVariant.t :=
  match Dict.lookup key (Build.variants b) with
  | Some v => v
  | None => {| BuildVariant.directory := ""; BuildVariant.config_file := None;
               BuildVariant.template_file := ""; BuildVariant.template := None;
               BuildVariant.tags := []; BuildVariant.variables := [] |}
  end.

(** ** Override variants *)

(** The build of the specification's example: the manifest declares the
    tag [{{ _source.tag }}], and [variants/1.0] has no configuration
    file. *)
Definition inheriting_build : res Build.t :=
  Build.init variant_world "app" example_source "" "variants" "image-build"
             "Dockerfile.j2" [] [[("template", VStr "{{ _source.tag }}")]].

(** The same, where the configuration file of [variants/1.0] defines
    the template again, negated. *)
Definition negating_world : World := {|
  re_search := re_search variant_world;
  read_config := fun path =>
    if String.eqb path "variants/1.0/image-build.yml" then
      Config [("tags",
               VList [VDict [("template", VStr "{{ _source.tag }}");
                             ("negate", VBool true)]])]
    else NoFile;
  get_template := get_template variant_world;
  isdir := isdir variant_world;
  read_lines := read_lines variant_world;
  exclude_paths := exclude_paths variant_world;
  now := now variant_world;
  engine_build := engine_build variant_world;
  engine_push := engine_push variant_world;
  save_fails := save_fails variant_world
|}.

Definition negating_build : res Build.t :=
  Build.init negating_world "app" example_source "" "variants" "image-build"
             "Dockerfile.j2" [] [[("template", VStr "{{ _source.tag }}")]].

(** * Part III: the properties *)

(** ** Utils.merge_dict on trees *)

Lemma merge_dict_unfold (a b : dict) :
  merge_dict a b = fold_left merge_key b (Dict.copy a).
Proof.
  unfold merge_dict. cbn [merge_into].
  generalize (Dict.copy a) as result.
  induction b as [|[key bv] rest IH]; intros result; [reflexivity|].
  cbn [fold_left]. rewrite <- IH. f_equal.
  unfold merge_key. destruct (Dict.lookup key result) as [rv|]; [|reflexivity].
  destruct rv; try reflexivity. destruct bv; reflexivity.
Qed.

Example merge_dict_ex1 :
  merge_dict [("a", VInt 1); ("n", VDict [("x", VInt 1)])]
             [("n", VDict [("y", VInt 2)]); ("b", VStr "s")]
  = [("a", VInt 1); ("n", VDict [("x", VInt 1); ("y", VInt 2)]); ("b", VStr "s")].
Proof. reflexivity. Qed.

(** ** Association-list facts *)

Section DictFacts.
Context {V : Type}.
Implicit Types (d : list (string * V)) (k key : string) (v : V).

Lemma lookup_app key d1 d2 :
  Dict.lookup key (d1 ++ d2) =
  match Dict.lookup key d1 with
  | Some v => Some v
  | None => Dict.lookup key d2
  end.
Proof.
  induction d1 as [|[k w] d1 IH]; cbn; [reflexivity|].
  destruct (String.eqb key k); auto.
Qed.

Lemma lookup_replace_same key v d :
  Dict.lookup key (Dict.replace key v d) =
  match Dict.lookup key d with Some _ => Some v | None => None end.
Proof.
  induction d as [|[k w] d IH]; cbn; [reflexivity|].
  destruct (String.eqb key k) eqn:E; cbn; rewrite E; auto.
Qed.

Lemma lookup_replace_other k key v d :
  k <> key -> Dict.lookup k (Dict.replace key v d) = Dict.lookup k d.
Proof.
  intros Hne. induction d as [|[k' w] d IH]; cbn; [reflexivity|].
  destruct (String.eqb key k') eqn:E; cbn.
  - apply String.eqb_eq in E. subst k'.
    destruct (String.eqb k key) eqn:E'; [|reflexivity].
    apply String.eqb_eq in E'. contradiction.
  - destruct (String.eqb k k'); auto.
Qed.

Lemma keys_replace key v d :
  map fst (Dict.replace key v d) = map fst d.
Proof.
  induction d as [|[k w] d IH]; cbn; [reflexivity|].
  destruct (String.eqb key k); cbn; congruence.
Qed.

Lemma lookup_none_keys key d :
  Dict.lookup key d = None <-> ~ In key (map fst d).
Proof.
  induction d as [|[k w] d IH]; cbn; [tauto|].
  destruct (String.eqb key k) eqn:E.
  - apply String.eqb_eq in E. subst. split; [discriminate|tauto].
  - apply String.eqb_neq in E. rewrite IH. split; [|tauto].
    intros H [H'|H']; [congruence|tauto].
Qed.

Lemma lookup_some_in key v d :
  Dict.lookup key d = Some v -> In (key, v) d.
Proof.
  induction d as [|[k w] d IH]; cbn; [discriminate|].
  destruct (String.eqb key k) eqn:E.
  - apply String.eqb_eq in E. intros [= ->]. subst. auto.
  - auto.
Qed.

Lemma replace_absent key v d :
  Dict.lookup key d = None -> Dict.replace key v d = d.
Proof.
  induction d as [|[k w] d IH]; cbn; [reflexivity|].
  destruct (String.eqb key k); [discriminate|]. intros H. now rewrite IH.
Qed.
End DictFacts.

Lemma nodup_keys_spec (ks : list string) :
  nodup_keys ks = true <-> NoDup ks.
Proof.
  induction ks as [|k rest IH]; cbn.
  - split; [constructor|reflexivity].
  - rewrite andb_true_iff, negb_true_iff, IH. split.
    + intros [Hk Hr]. constructor; [|assumption].
      intros Hin. assert (existsb (String.eqb k) rest = true) as E.
      { apply existsb_exists. exists k. split; [assumption|apply String.eqb_refl]. }
      congruence.
    + intros Hnd. inversion Hnd as [|? ? Hk Hr]; subst. split; [|assumption].
      destruct (existsb (String.eqb k) rest) eqn:E; [|reflexivity].
      apply existsb_exists in E. destruct E as [x [Hin Hx]].
      apply String.eqb_eq in Hx. subst. contradiction.
Qed.

Lemma lookup_in_nodup {V} (key : string) (v : V) (d : list (string * V)) :
  NoDup (map fst d) -> In (key, v) d -> Dict.lookup key d = Some v.
Proof.
  induction d as [|[k w] d IH]; cbn; [tauto|].
  intros Hnd [Heq|Hin]; inversion Hnd as [|? ? Hk Hr]; subst.
  - injection Heq as -> ->. now rewrite String.eqb_refl.
  - destruct (String.eqb key k) eqn:E; [|auto].
    apply String.eqb_eq in E. subst. exfalso. apply Hk.
    change k with (fst (k, v)). now apply in_map.
Qed.

(** The parts of [wf] *)

Lemma wf_dict_cons k v d :
  wf_dict ((k, v) :: d) = true ->
  ~ In k (map fst d) /\ wf v = true /\ wf_dict d = true.
Proof.
  unfold wf_dict. cbn. rewrite !andb_true_iff, negb_true_iff.
  intros [[Hk Hnd] [Hv Hd]]. split; [|split; [assumption|]].
  - intros Hin. assert (existsb (String.eqb k) (map fst d) = true) as E.
    { apply existsb_exists. exists k. split; [assumption|apply String.eqb_refl]. }
    congruence.
  - now rewrite Hnd, Hd.
Qed.

Lemma wf_dict_nodup d : wf_dict d = true -> NoDup (map fst d).
Proof.
  unfold wf_dict. cbn. rewrite andb_true_iff. intros [H _].
  now apply nodup_keys_spec.
Qed.

Lemma wf_dict_entries d :
  wf_dict d = true -> Forall (fun kv => wf (snd kv) = true) d.
Proof.
  induction d as [|[k v] d IH]; intros H; [constructor|].
  apply wf_dict_cons in H. destruct H as (_ & Hv & Hd). constructor; auto.
Qed.

Lemma wf_dict_intro d :
  NoDup (map fst d) -> Forall (fun kv => wf (snd kv) = true) d ->
  wf_dict d = true.
Proof.
  intros Hnd Hall. unfold wf_dict. cbn. apply andb_true_iff. split.
  - now apply nodup_keys_spec.
  - clear Hnd. induction Hall as [|[k v] d Hv _ IH]; [reflexivity|].
    cbn in Hv. now rewrite Hv, IH.
Qed.

Lemma wf_lookup (d : dict) k v :
  wf_dict d = true -> Dict.lookup k d = Some v -> wf v = true.
Proof.
  intros Hwf Hl. apply lookup_some_in in Hl.
  pose proof (wf_dict_entries d Hwf) as Hall.
  rewrite Forall_forall in Hall. exact (Hall _ Hl).
Qed.

(** [==] is reflexive on well-formed values. *)
Lemma py_eq_refl (v : value) : wf v = true -> py_eq v v = true.
Proof.
  induction v as [| b | z | s | l IH | d IH] using value_nested_ind; intros Hwf.
  - reflexivity.
  - cbn. now destruct b.
  - cbn. apply Z.eqb_refl.
  - cbn. apply String.eqb_refl.
  - cbn in *. induction IH as [|x l Hx _ IHl]; [reflexivity|].
    apply andb_true_iff in Hwf. destruct Hwf as [Hwx Hwl].
    rewrite (Hx Hwx). cbn. auto.
  - cbn [py_eq]. rewrite Nat.eqb_refl. cbn [andb].
    pose proof (wf_dict_nodup d Hwf) as Hnd.
    pose proof (wf_dict_entries d Hwf) as Hent.
    assert (forall d0, incl d0 d ->
      (fix entries_in (d1 : list (string * value)) : bool :=
         match d1 with
         | [] => true
         | (k, v) :: d' =>
             match Dict.lookup k d with
             | Some v' => py_eq v v'
             | None => false
             end && entries_in d'
         end) d0 = true) as Hgen.
    { induction d0 as [|[k v] d0 IHd0]; intros Hincl; [reflexivity|].
      assert (In (k, v) d) as Hin by (apply Hincl; now left).
      rewrite (lookup_in_nodup k v d Hnd Hin).
      rewrite Forall_forall in IH, Hent.
      pose proof (IH _ Hin (Hent _ Hin)) as Hvv. cbn [snd] in Hvv.
      rewrite Hvv. cbn [andb].
      apply IHd0. intros x Hx. apply Hincl. now right. }
    apply Hgen. apply incl_refl.
Qed.

Lemma replace_same_value {V} key (v : V) d :
  Dict.lookup key d = Some v -> Dict.replace key v d = d.
Proof.
  induction d as [|[k w] d IH]; cbn; [reflexivity|].
  destruct (String.eqb key k) eqn:E.
  - intros [= ->]. reflexivity.
  - intros H. now rewrite IH.
Qed.

Lemma merge_key_present result key rv bv :
  Dict.lookup key result = Some rv ->
  merge_key result (key, bv) = Dict.replace key (merge_val rv bv) result.
Proof.
  intros Hl. unfold merge_key, merge_val. rewrite Hl.
  destruct rv; try (destruct (py_eq _ bv);
    [symmetry; now apply replace_same_value|reflexivity]).
  destruct bv; try reflexivity.
  all: destruct (py_eq _ _);
    [symmetry; now apply replace_same_value|reflexivity].
Qed.

Lemma merge_key_absent result key bv :
  Dict.lookup key result = None ->
  merge_key result (key, bv) = result ++ [(key, bv)].
Proof. intros Hl. unfold merge_key. now rewrite Hl. Qed.

Lemma merge_key_lookup_same result key bv :
  Dict.lookup key (merge_key result (key, bv)) =
  Some match Dict.lookup key result with
       | Some rv => merge_val rv bv
       | None => bv
       end.
Proof.
  destruct (Dict.lookup key result) as [rv|] eqn:Hl.
  - rewrite (merge_key_present _ _ _ _ Hl), lookup_replace_same. now rewrite Hl.
  - rewrite (merge_key_absent _ _ _ Hl), lookup_app, Hl. cbn.
    now rewrite String.eqb_refl.
Qed.

Lemma merge_key_lookup_other result key bv k :
  k <> key ->
  Dict.lookup k (merge_key result (key, bv)) = Dict.lookup k result.
Proof.
  intros Hne. destruct (Dict.lookup key result) as [rv|] eqn:Hl.
  - rewrite (merge_key_present _ _ _ _ Hl). now apply lookup_replace_other.
  - rewrite (merge_key_absent _ _ _ Hl), lookup_app.
    destruct (Dict.lookup k result); [reflexivity|]. cbn.
    destruct (String.eqb k key) eqn:E; [|reflexivity].
    apply String.eqb_eq in E. contradiction.
Qed.

Lemma fold_merge_key_lookup (b result : dict) k :
  NoDup (map fst b) ->
  Dict.lookup k (fold_left merge_key b result) =
  match Dict.lookup k b with
  | None => Dict.lookup k result
  | Some bv =>
      Some match Dict.lookup k result with
           | Some rv => merge_val rv bv
           | None => bv
           end
  end.
Proof.
  revert result. induction b as [|[key bv] rest IH]; intros result Hnd.
  - reflexivity.
  - inversion Hnd as [|? ? Hk Hr]; subst. cbn [fold_left Dict.lookup].
    rewrite (IH _ Hr). destruct (String.eqb k key) eqn:E.
    + apply String.eqb_eq in E. subst k.
      apply lookup_none_keys in Hk. rewrite Hk.
      apply merge_key_lookup_same.
    + apply String.eqb_neq in E.
      rewrite (merge_key_lookup_other _ _ _ _ E). reflexivity.
Qed.

(** The lookup table of the merge, key by key. *)
Lemma merge_dict_lookup (a b : dict) k :
  NoDup (map fst b) ->
  Dict.lookup k (merge_dict a b) =
  match Dict.lookup k a, Dict.lookup k b with
  | Some av, Some bv => Some (merge_val av bv)
  | Some av, None => Some av
  | None, Some bv => Some bv
  | None, None => None
  end.
Proof.
  intros Hnd. rewrite merge_dict_unfold, (fold_merge_key_lookup _ _ _ Hnd).
  unfold Dict.copy.
  destruct (Dict.lookup k b), (Dict.lookup k a); reflexivity.
Qed.

Lemma merge_dict_empty_r (a : dict) : merge_dict a [] = a.
Proof. reflexivity. Qed.

Lemma fold_merge_key_fresh (b result : dict) :
  NoDup (map fst b) ->
  (forall k, In k (map fst b) -> ~ In k (map fst result)) ->
  fold_left merge_key b result = result ++ b.
Proof.
  revert result. induction b as [|[key bv] rest IH]; intros result Hnd Hfresh.
  - cbn. now rewrite app_nil_r.
  - inversion Hnd as [|? ? Hk Hr]; subst. cbn [fold_left].
    rewrite merge_key_absent.
    2:{ apply lookup_none_keys. apply Hfresh. now left. }
    rewrite IH; [now rewrite <- app_assoc|assumption|].
    intros k Hin. rewrite map_app, in_app_iff. cbn.
    intros [H|[H|[]]].
    + apply (Hfresh k); [now right|assumption].
    + subst. contradiction.
Qed.

Lemma merge_dict_empty_l (b : dict) :
  NoDup (map fst b) -> merge_dict [] b = b.
Proof.
  intros Hnd. rewrite merge_dict_unfold.
  apply (fold_merge_key_fresh b [] Hnd). intros k _ [].
Qed.

(** The merge of two well-formed dicts is a well-formed dict. *)
Lemma wf_replace (d : dict) key v :
  wf_dict d = true -> wf v = true -> wf_dict (Dict.replace key v d) = true.
Proof.
  intros Hd Hv. apply wf_dict_intro.
  - rewrite keys_replace. now apply wf_dict_nodup.
  - pose proof (wf_dict_entries d Hd) as Hall. clear Hd.
    induction Hall as [|[k w] d Hw Hall IH]; cbn; [constructor|].
    destruct (String.eqb key k); constructor; auto.
Qed.

Lemma wf_append (d : dict) key v :
  wf_dict d = true -> wf v = true -> Dict.lookup key d = None ->
  wf_dict (d ++ [(key, v)]) = true.
Proof.
  intros Hd Hv Hl. apply wf_dict_intro.
  - rewrite map_app. cbn. apply NoDup_app; [now apply wf_dict_nodup| |].
    + constructor; [intros []|constructor].
    + intros k Hin [H|[]]. subst. apply lookup_none_keys in Hl. contradiction.
  - apply Forall_app. split; [now apply wf_dict_entries|].
    constructor; [assumption|constructor].
Qed.

Lemma wf_merge_into (bv : value) :
  forall a, wf_dict a = true -> wf bv = true -> wf_dict (merge_into a bv) = true.
Proof.
  induction bv as [| b | z | s | l _ | d IH] using value_nested_ind;
    intros a Ha Hb; try exact Ha.
  change (merge_into a (VDict d)) with (merge_dict a d).
  rewrite merge_dict_unfold. unfold Dict.copy.
  pose proof (wf_dict_entries d Hb) as Hent. clear Hb.
  revert a Ha. induction d as [|[key v] rest IHrest]; intros result Hres.
  - exact Hres.
  - inversion IH as [|? ? Hv IH']; subst. inversion Hent as [|? ? Hwv Hent']; subst.
    cbn [snd] in Hv, Hwv. cbn [fold_left]. apply (IHrest IH' Hent').
    destruct (Dict.lookup key result) as [rv|] eqn:Hl.
    + rewrite (merge_key_present _ _ _ _ Hl). apply wf_replace; [assumption|].
      pose proof (wf_lookup _ _ _ Hres Hl) as Hrv.
      unfold merge_val. destruct rv; try (destruct (py_eq _ v); assumption).
      destruct v; try (destruct (py_eq _ _); assumption).
      apply (Hv d); assumption.
    + rewrite (merge_key_absent _ _ _ Hl). now apply wf_append.
Qed.

Lemma wf_merge_dict (a b : dict) :
  wf_dict a = true -> wf_dict b = true -> wf_dict (merge_dict a b) = true.
Proof. intros Ha Hb. now apply wf_merge_into. Qed.

Example store_merge_ex :
  let h := [ Store.ODict [("x", Store.PInt 1)];
             Store.ODict [("a", Store.PInt 1); ("n", Store.PRef 0)];
             Store.ODict [("y", Store.PInt 2)];
             Store.ODict [("n", Store.PRef 2); ("b", Store.PStr "s")] ] in
  Store.merge_dict 2 h 1 3 =
  Some (h ++ [ Store.ODict [("a", Store.PInt 1); ("n", Store.PRef 5);
                            ("b", Store.PStr "s")];
               Store.ODict [("x", Store.PInt 1); ("y", Store.PInt 2)] ], 4).
Proof. reflexivity. Qed.

(** ** Store facts *)

Module StoreFacts.
Import Store StoreProps.

Lemma length_update {A} (l : list A) i x :
  List.length (update l i x) = List.length l.
Proof.
  revert i. induction l as [|y l IH]; intros [|i]; cbn; auto.
Qed.

Lemma nth_error_update_eq {A} (l : list A) i x :
  i < List.length l -> nth_error (update l i x) i = Some x.
Proof.
  revert i. induction l as [|y l IH]; intros [|i]; cbn; intros H;
    try lia; [reflexivity|]. apply IH. lia.
Qed.

Lemma nth_error_update_neq {A} (l : list A) i j x :
  i <> j -> nth_error (update l i x) j = nth_error l j.
Proof.
  revert i j. induction l as [|y l IH]; intros [|i] [|j] H; cbn; auto.
  contradiction.
Qed.

Lemma nth_error_alloc_old (h : heap) o l x :
  nth_error h l = Some x -> nth_error (h ++ [o]) l = Some x.
Proof.
  intros H. rewrite nth_error_app1; [assumption|].
  apply nth_error_Some. congruence.
Qed.

Lemma nth_error_alloc_new (h : heap) o :
  nth_error (h ++ [o]) (List.length h) = Some o.
Proof. rewrite nth_error_app2, Nat.sub_diag; [reflexivity|lia]. Qed.

Lemma preserves_refl h : preserves h h.
Proof. intros l o H. exact H. Qed.

Lemma preserves_trans h1 h2 h3 :
  preserves h1 h2 -> preserves h2 h3 -> preserves h1 h3.
Proof. intros H12 H23 l o H. auto. Qed.

Lemma preserves_length h h' : preserves h h' -> List.length h <= List.length h'.
Proof.
  intros Hp. destruct (List.length h) as [|n] eqn:E; [lia|].
  destruct (nth_error h n) as [o|] eqn:Hn.
  - apply Hp in Hn. assert (n < List.length h') by (apply nth_error_Some; congruence).
    lia.
  - apply nth_error_None in Hn. lia.
Qed.

Lemma closed_spec (h : heap) :
  closed h = true <->
  (forall p o l, nth_error h p = Some o -> In (PRef l) (obj_vals o) ->
                 l < List.length h).
Proof.
  unfold closed. rewrite forallb_forall. split.
  - intros H p o l Hp Hin. apply nth_error_In in Hp.
    specialize (H o Hp). rewrite forallb_forall in H.
    specialize (H _ Hin). cbn in H. now apply Nat.ltb_lt.
  - intros H o Ho. apply In_nth_error in Ho. destruct Ho as [p Hp].
    apply forallb_forall. intros [| | | |l] Hin; try reflexivity.
    apply Nat.ltb_lt. eapply H; eassumption.
Qed.

Lemma closed_unref_fresh (h : heap) r :
  closed h = true -> List.length h <= r -> unref h r.
Proof.
  intros Hc Hr p o Hp Hin. rewrite closed_spec in Hc.
  specialize (Hc _ _ _ Hp Hin). lia.
Qed.

(** *** Inversion of [reads] *)

Lemma reads_dict_iff h d x :
  reads h (VDict d) x = true <->
  exists p xd, x = PRef p /\ nth_error h p = Some (ODict xd) /\
               Forall2 (entry_reads h) d xd.
Proof.
  cbn [reads]. destruct x as [| | | |p];
    try (split; [discriminate|intros (? & ? & [=] & _)]).
  destruct (nth_error h p) as [[xd|xs]|] eqn:E;
    try (split; [discriminate|intros (? & ? & [= <-] & ? & _); congruence]).
  assert (forall d xd,
    (fix go (d : list (string * value)) (xd : list (string * pyval))
       {struct d} : bool :=
       match d, xd with
       | [], [] => true
       | (k, t) :: d', (k', x) :: xd' =>
           String.eqb k k' && reads h t x && go d' xd'
       | _, _ => false
       end) d xd = true <-> Forall2 (entry_reads h) d xd) as Hgo.
  { clear. induction d as [|[k t] d IH]; intros [|[k' x] xd].
    - split; [constructor|reflexivity].
    - split; [discriminate|inversion 1].
    - split; [discriminate|inversion 1].
    - rewrite !andb_true_iff, IH, String.eqb_eq. split.
      + intros [[Hk Hr] Hf]. constructor; [split; assumption|assumption].
      + inversion 1 as [|? ? ? ? [Hk Hr] Hf]; subst. cbn in *. tauto. }
  rewrite Hgo. split.
  - intros H. exists p, xd. split; [reflexivity|split; [exact E|exact H]].
  - intros (p' & xd' & [= <-] & E' & H). congruence.
Qed.

Lemma reads_list_iff h l x :
  reads h (VList l) x = true <->
  exists p xs, x = PRef p /\ nth_error h p = Some (OList xs) /\
               Forall2 (fun t x => reads h t x = true) l xs.
Proof.
  cbn [reads]. destruct x as [| | | |p];
    try (split; [discriminate|intros (? & ? & [=] & _)]).
  destruct (nth_error h p) as [[xd|xs]|] eqn:E;
    try (split; [discriminate|intros (? & ? & [= <-] & ? & _); congruence]).
  assert (forall l xs,
    (fix go (l : list value) (xs : list pyval) {struct l} : bool :=
       match l, xs with
       | [], [] => true
       | t :: l', x :: xs' => reads h t x && go l' xs'
       | _, _ => false
       end) l xs = true <-> Forall2 (fun t x => reads h t x = true) l xs)
    as Hgo.
  { clear. induction l as [|t l IH]; intros [|x xs].
    - split; [constructor|reflexivity].
    - split; [discriminate|inversion 1].
    - split; [discriminate|inversion 1].
    - rewrite !andb_true_iff, IH. split.
      + intros [Hr Hf]. constructor; assumption.
      + inversion 1; subst. tauto. }
  rewrite Hgo. split.
  - intros H. exists p, xs. split; [reflexivity|split; [exact E|exact H]].
  - intros (p' & xs' & [= <-] & E' & H). congruence.
Qed.

(** Reading is stable under every change of the store that leaves the
    locations satisfying [ok] alone, as long as these refer only to one
    another. *)
Lemma reads_transfer (ok : loc -> Prop) (h h' : heap) :
  (forall l o, ok l -> nth_error h l = Some o ->
               nth_error h' l = Some o /\
               forall l', In (PRef l') (obj_vals o) -> ok l') ->
  forall t x, (forall l, x = PRef l -> ok l) ->
              reads h t x = true -> reads h' t x = true.
Proof.
  intros Hok.
  induction t as [| b | z | s | l IH | d IH] using value_nested_ind;
    intros x Hx Hr.
  - destruct x; try discriminate; reflexivity.
  - destruct x; try discriminate; exact Hr.
  - destruct x; try discriminate; exact Hr.
  - destruct x; try discriminate; exact Hr.
  - apply reads_list_iff in Hr. destruct Hr as (p & xs & -> & Hp & Hf).
    apply reads_list_iff. exists p, xs.
    destruct (Hok p _ (Hx p eq_refl) Hp) as [Hp' Hin].
    split; [reflexivity|split; [assumption|]]. cbn in Hin.
    clear Hp Hp' Hx. induction Hf as [|t x l xs Htx Hf IHf]; [constructor|].
    inversion IH as [|? ? IHt IHl]; subst. constructor.
    + apply IHt; [|assumption]. intros l' ->. apply Hin. now left.
    + apply IHf; [assumption|]. intros l' Hl'. apply Hin. now right.
  - apply reads_dict_iff in Hr. destruct Hr as (p & xd & -> & Hp & Hf).
    apply reads_dict_iff. exists p, xd.
    destruct (Hok p _ (Hx p eq_refl) Hp) as [Hp' Hin].
    split; [reflexivity|split; [assumption|]]. cbn in Hin.
    clear Hp Hp' Hx. induction Hf as [|[k t] [k' x] d xd [Hk Htx] Hf IHf];
      [constructor|].
    inversion IH as [|? ? IHt IHl]; subst. cbn in *. constructor.
    + split; [assumption|]. cbn. apply IHt; [|assumption].
      intros l' ->. apply Hin. now left.
    + apply IHf; [assumption|]. intros l' Hl'. apply Hin. now right.
Qed.

Lemma reads_preserved h h' t x :
  preserves h h' -> reads h t x = true -> reads h' t x = true.
Proof.
  intros Hp. apply (reads_transfer (fun _ => True)); [|trivial].
  intros l o _ Hl. split; [now apply Hp|trivial].
Qed.

Lemma reads_update_unref h r o t x :
  unref h r -> x <> PRef r ->
  reads h t x = true -> reads (update h r o) t x = true.
Proof.
  intros Hu Hx. apply (reads_transfer (fun l => l <> r)).
  - intros l o' Hl Hn. split.
    + rewrite nth_error_update_neq; [assumption|congruence].
    + intros l' Hin ->. exact (Hu _ _ Hn Hin).
  - intros l -> ->. now apply Hx.
Qed.

End StoreFacts.

Lemma py_eq_list l1 l2 : py_eq (VList l1) (VList l2) = py_seq_eq l1 l2.
Proof.
  cbn [py_eq]. revert l2.
  induction l1 as [|a l1 IH]; intros [|b l2]; cbn;
    first [reflexivity | now rewrite IH].
Qed.

Lemma py_eq_dict d1 d2 :
  py_eq (VDict d1) (VDict d2) =
  Nat.eqb (List.length d1) (List.length d2) && py_entries_in d2 d1.
Proof.
  cbn [py_eq]. f_equal.
  induction d1 as [|[k v] d1 IH]; cbn; first [reflexivity | now rewrite IH].
Qed.

Module CompareFacts.
Local Abbreviation tree_eq := py_eq.
Import Store StoreProps MergeProps StoreFacts.

Lemma lookup_reads h d xd :
  Forall2 (entry_reads h) d xd ->
  forall k,
    match Dict.lookup k d, Dict.lookup k xd with
    | Some t, Some x => reads h t x = true
    | None, None => True
    | _, _ => False
    end.
Proof.
  induction 1 as [|[k1 t] [k2 x] d xd [Hk Hr] Hf IH]; intros k; cbn; [exact I|].
  cbn in Hk, Hr. subst k2. destruct (String.eqb k k1); [exact Hr|apply IH].
Qed.

Lemma reads_scalar_eq h t1 x t2 y :
  reads h t1 x = true -> reads h t2 y = true ->
  is_dict t1 = false -> (forall l, t1 <> VList l) ->
  forall n, Store.py_eq n h x y = Some (tree_eq t1 t2).
Proof.
  intros H1 H2 Hd Hl n.
  destruct t1 as [| ? | ? | ? | l | d]; try discriminate;
    try (exfalso; now apply (Hl l));
    destruct x; try discriminate; cbn in H1;
    destruct t2 as [| ? | ? | ? | l2 | d2]; destruct y; try discriminate;
    cbn in H2; destruct n; cbn; try reflexivity.
  all: try (apply Bool.eqb_prop in H1); try (apply Bool.eqb_prop in H2);
    try (apply Z.eqb_eq in H1); try (apply Z.eqb_eq in H2);
    try (apply String.eqb_eq in H1); try (apply String.eqb_eq in H2);
    subst; reflexivity.
Qed.

Lemma seq_eq_refines h l1 xs :
  Forall2 (fun t x => reads h t x = true) l1 xs ->
  Forall (eq_refines h) l1 ->
  forall l2 ys,
    Forall2 (fun t x => reads h t x = true) l2 ys ->
    exists n0, forall n, n0 <= n ->
      seq_eq (Store.py_eq n h) xs ys = Some (py_seq_eq l1 l2).
Proof.
  induction 1 as [|t x l1 xs Htx Hf IH]; intros Hall l2 ys H2.
  - exists 0. intros n _. destruct H2; reflexivity.
  - inversion Hall as [|? ? Ht Hall']; subst.
    destruct H2 as [|t2 y l2 ys Hty H2].
    + exists 0. intros n _. reflexivity.
    + destruct (Ht _ _ _ Htx Hty) as [n1 Hn1].
      destruct (IH Hall' _ _ H2) as [n2 Hn2].
      exists (Nat.max n1 n2). intros n Hn. cbn.
      rewrite Hn1 by lia. destruct (tree_eq t t2); cbn; [|reflexivity].
      apply Hn2. lia.
Qed.

Lemma entries_in_refines h d2 yd d1 xd :
  Forall2 (entry_reads h) d2 yd ->
  Forall2 (entry_reads h) d1 xd ->
  Forall (fun kv => eq_refines h (snd kv)) d1 ->
  exists n0, forall n, n0 <= n ->
    entries_in (Store.py_eq n h) yd xd = Some (py_entries_in d2 d1).
Proof.
  intros H2. induction 1 as [|[k t] [k' x] d1 xd [Hk Htx] Hf IH]; intros Hall.
  - exists 0. reflexivity.
  - inversion Hall as [|? ? Ht Hall']; subst. cbn in Hk, Htx, Ht. subst k'.
    destruct (IH Hall') as [n2 Hn2].
    pose proof (lookup_reads _ _ _ H2 k) as Hl. cbn.
    destruct (Dict.lookup k d2) as [t2|], (Dict.lookup k yd) as [y|];
      try contradiction.
    + destruct (Ht _ _ _ Htx Hl) as [n1 Hn1].
      exists (Nat.max n1 n2). intros n Hn.
      rewrite Hn1 by lia. destruct (tree_eq t t2); cbn; [|reflexivity].
      apply Hn2. lia.
    + exists 0. reflexivity.
Qed.

Lemma py_eq_refines h t1 : eq_refines h t1.
Proof.
  induction t1 as [| b | z | s | l1 IH | d1 IH] using value_nested_ind;
    intros x t2 y H1 H2;
    try (exists 0; intros n _;
         apply (reads_scalar_eq h _ x t2 y H1 H2 eq_refl); discriminate).
  - apply reads_list_iff in H1. destruct H1 as (p & xs & -> & Hp & Hf1).
    destruct t2 as [| b | b | b | l2 | d2];
      try (destruct y; try discriminate; exists 0; intros n _;
           destruct n; reflexivity).
    + apply reads_list_iff in H2. destruct H2 as (q & ys & -> & Hq & Hf2).
      destruct (seq_eq_refines h l1 xs Hf1 IH l2 ys Hf2) as [n0 Hn0].
      exists (S n0). intros [|n] Hn; [lia|]. cbn [Store.py_eq].
      rewrite Hp, Hq, py_eq_list. apply Hn0. lia.
    + apply reads_dict_iff in H2. destruct H2 as (q & yd & -> & Hq & Hf2).
      exists 1. intros [|n] Hn; [lia|]. cbn [Store.py_eq].
      now rewrite Hp, Hq.
  - apply reads_dict_iff in H1. destruct H1 as (p & xd & -> & Hp & Hf1).
    destruct t2 as [| b | b | b | l2 | d2];
      try (destruct y; try discriminate; exists 0; intros n _;
           destruct n; reflexivity).
    + apply reads_list_iff in H2. destruct H2 as (q & ys & -> & Hq & Hf2).
      exists 1. intros [|n] Hn; [lia|]. cbn [Store.py_eq].
      now rewrite Hp, Hq.
    + apply reads_dict_iff in H2. destruct H2 as (q & yd & -> & Hq & Hf2).
      destruct (entries_in_refines h d2 yd d1 xd Hf2 Hf1 IH) as [n0 Hn0].
      exists (S n0). intros [|n] Hn; [lia|]. cbn [Store.py_eq].
      rewrite Hp, Hq, py_eq_dict.
      rewrite <- (Forall2_length Hf1), <- (Forall2_length Hf2).
      destruct (Nat.eqb (List.length d1) (List.length d2)); cbn;
        [|reflexivity].
      apply Hn0. lia.
Qed.

End CompareFacts.

(** ** [merge_dict] on the store computes the merge of the trees and
    leaves every object it was given as it found it *)

Module MergeFacts.
Local Abbreviation tree_merge := merge_dict.
Local Abbreviation tree_merge_key := merge_key.
Local Abbreviation tree_eq := py_eq.
Import Store StoreProps MergeProps StoreFacts CompareFacts.

Lemma nth_error_update_inv {A} (l : list A) i j x y :
  nth_error (update l i x) j = Some y ->
  (j = i /\ y = x) \/ (j <> i /\ nth_error l j = Some y).
Proof.
  intros H. destruct (Nat.eq_dec j i) as [->|Hne].
  - left. split; [reflexivity|].
    destruct (Nat.lt_ge_cases i (List.length l)) as [Hlt|Hge].
    + rewrite nth_error_update_eq in H by assumption. congruence.
    + assert (nth_error (update l i x) i = None) as E.
      { apply nth_error_None. now rewrite length_update. }
      congruence.
  - right. split; [assumption|].
    rewrite nth_error_update_neq in H; [assumption|congruence].
Qed.

Lemma vals_set key (v v' : pyval) d :
  In v' (map snd (Dict.set key v d)) -> v' = v \/ In v' (map snd d).
Proof.
  unfold Dict.set. destruct (Dict.mem key d).
  - induction d as [|[k w] d IH]; cbn; [tauto|].
    destruct (String.eqb key k); cbn; intros [H|H]; auto.
    destruct (IH H); auto.
  - rewrite map_app, in_app_iff. cbn. intros [H|[H|[]]]; auto.
Qed.

Lemma closed_update h r o :
  closed h = true ->
  (forall l, In (PRef l) (obj_vals o) -> l < List.length h) ->
  closed (update h r o) = true.
Proof.
  rewrite !closed_spec. intros Hc Ho p o' l Hp Hin.
  rewrite length_update.
  destruct (nth_error_update_inv _ _ _ _ _ Hp) as [[_ ->]|[_ Hp']].
  - now apply Ho.
  - eapply Hc; eassumption.
Qed.

Lemma closed_alloc h o :
  closed h = true ->
  (forall l, In (PRef l) (obj_vals o) -> l < List.length h) ->
  closed (h ++ [o]) = true.
Proof.
  rewrite !closed_spec. intros Hc Ho p o' l Hp Hin.
  rewrite length_app. cbn.
  destruct (Nat.lt_ge_cases p (List.length h)) as [Hlt|Hge].
  - rewrite nth_error_app1 in Hp by assumption.
    specialize (Hc _ _ _ Hp Hin). lia.
  - rewrite nth_error_app2 in Hp by assumption.
    destruct (p - List.length h) as [|[|k]]; cbn in Hp; try discriminate.
    injection Hp as <-. specialize (Ho _ Hin). lia.
Qed.

Lemma mem_reads h d xd key :
  Forall2 (entry_reads h) d xd -> Dict.mem key d = Dict.mem key xd.
Proof.
  intros Hf. pose proof (lookup_reads _ _ _ Hf key) as Hl. unfold Dict.mem.
  destruct (Dict.lookup key d), (Dict.lookup key xd);
    try reflexivity; contradiction.
Qed.

Lemma Forall2_set h d xd key vt v :
  Forall2 (entry_reads h) d xd -> reads h vt v = true ->
  Forall2 (entry_reads h) (Dict.set key vt d) (Dict.set key v xd).
Proof.
  intros Hf Hr. unfold Dict.set. rewrite <- (mem_reads _ _ _ key Hf).
  destruct (Dict.mem key d).
  - clear -Hf Hr. induction Hf as [|[k t] [k' x] d xd [Hk Hx] Hf IH];
      cbn; [constructor|].
    cbn in Hk, Hx. subst k'. destruct (String.eqb key k).
    + constructor; [split; [reflexivity|exact Hr]|assumption].
    + constructor; [split; [reflexivity|exact Hx]|assumption].
  - apply Forall2_app; [assumption|].
    constructor; [split; [reflexivity|exact Hr]|constructor].
Qed.

Lemma isinstance_reads h t x :
  reads h t x = true -> isinstance_dict h x = is_dict t.
Proof.
  intros Hr. destruct t as [| ? | ? | ? | l | d].
  1-4: destruct x; try discriminate; reflexivity.
  - apply reads_list_iff in Hr. destruct Hr as (p & xs & -> & Hp & _).
    cbn. now rewrite Hp.
  - apply reads_dict_iff in Hr. destruct Hr as (p & xd & -> & Hp & _).
    cbn. now rewrite Hp.
Qed.

(** [result[key] = v], where [v] is a value found in the store or a
    reference to an object made since the call began. *)
Lemma inv_setitem h r hc tres key vt v :
  r = List.length h -> closed h = true ->
  inv h r hc tres ->
  reads hc vt v = true ->
  (forall l, v = PRef l ->
     l < List.length hc /\ l <> r /\ forall l0, l0 < r -> unref h l0 -> l0 <> l) ->
  exists h2, setitem hc r key v = Some h2 /\
             inv h r h2 (Dict.set key vt tres).
Proof.
  intros Hr Hch [Hc Hb Hp Hu Hrd] Hv Hfresh.
  pose proof Hrd as Hrd'. apply reads_dict_iff in Hrd'.
  destruct Hrd' as (p & rd & [= <-] & Hnr & Hf).
  assert (unref hc r) as Hur.
  { apply Hu; [lia|]. apply closed_unref_fresh; [assumption|lia]. }
  unfold setitem, get_dict. rewrite Hnr. eexists. split; [reflexivity|].
  assert (forall x, In x (map snd rd) -> x <> PRef r) as Hrd_r.
  { intros x Hin ->. exact (Hur _ _ Hnr Hin). }
  constructor.
  - apply closed_update; [assumption|]. cbn. intros l Hin.
    apply vals_set in Hin. destruct Hin as [Hin|Hin].
    + now apply Hfresh.
    + rewrite closed_spec in Hc. eapply Hc; [exact Hnr|exact Hin].
  - now rewrite length_update.
  - intros l o Hl. rewrite nth_error_update_neq; [now apply Hp|].
    assert (l < List.length h) by (apply nth_error_Some; congruence). lia.
  - intros l Hle Hul q o Hq Hin.
    destruct (nth_error_update_inv _ _ _ _ _ Hq) as [[_ ->]|[_ Hq']].
    + cbn in Hin. apply vals_set in Hin. destruct Hin as [Hin|Hin].
      * destruct (Hfresh _ (eq_sym Hin)) as (_ & Hne & Hfr).
        destruct (Nat.eq_dec l r) as [->|Hlr]; [congruence|].
        apply (Hfr l); [lia|assumption|reflexivity].
      * exact (Hu l Hle Hul _ _ Hnr Hin).
    + exact (Hu l Hle Hul _ _ Hq' Hin).
  - apply reads_dict_iff. exists r, (Dict.set key v rd).
    split; [reflexivity|]. split; [now apply nth_error_update_eq|].
    apply Forall2_set.
    + generalize (ODict (Dict.set key v rd)) as o. intros o.
      clear -Hf Hur Hrd_r.
      induction Hf as [|[k t] [k' x] d xd [Hk Hx] Hf IH]; [constructor|].
      constructor.
      * split; [assumption|]. cbn in *.
        apply reads_update_unref; [assumption| |assumption].
        apply Hrd_r. now left.
      * apply IH. intros y Hy. apply Hrd_r. now right.
    + apply reads_update_unref; [assumption| |assumption].
      intros ->. destruct (Hfresh r eq_refl) as (_ & Hne & _). congruence.
Qed.

(** The loop invariant survives a call that respects [post]. *)
Lemma inv_after_call h r hc tres t h1 m :
  inv h r hc tres -> post hc t h1 m -> inv h r h1 tres.
Proof.
  intros [Hc Hb Hp Hu Hrd] [Hc1 Hf1 Hp1 Hu1 Hr1]. constructor.
  - assumption.
  - lia.
  - eapply preserves_trans; eassumption.
  - intros l Hle Hul. apply Hu1; [lia|]. now apply Hu.
  - eapply reads_preserved; eassumption.
Qed.

(** A value held by an object of the store can be stored in
    [result]. *)
Lemma member_storable h r hc tres q o v :
  r = List.length h -> closed h = true -> inv h r hc tres ->
  nth_error hc q = Some o -> In v (obj_vals o) ->
  forall l, v = PRef l ->
    l < List.length hc /\ l <> r /\
    forall l0, l0 < r -> unref h l0 -> l0 <> l.
Proof.
  intros Hr Hch [Hc Hb Hp Hu Hrd] Hq Hin l ->. repeat split.
  - rewrite closed_spec in Hc. eapply Hc; eassumption.
  - intros ->. refine (Hu r _ _ _ _ Hq Hin); [lia|].
    apply closed_unref_fresh; [assumption|lia].
  - intros l0 Hl0 Hul0 ->. refine (Hu l _ Hul0 _ _ Hq Hin). lia.
Qed.

Lemma set_present {V} key (v w : V) d :
  Dict.lookup key d = Some w -> Dict.set key v d = Dict.replace key v d.
Proof. intros H. unfold Dict.set, Dict.mem. now rewrite H. Qed.

Lemma set_absent {V} key (v : V) d :
  Dict.lookup key d = None -> Dict.set key v d = d ++ [(key, v)].
Proof. intros H. unfold Dict.set, Dict.mem. now rewrite H. Qed.

(** One turn of the loop. *)
Lemma merge_key_refines h r b bfull xbd key bvt hc tres :
  r = List.length h -> closed h = true ->
  nth_error h b = Some (ODict xbd) ->
  Forall2 (entry_reads h) bfull xbd ->
  Dict.lookup key bfull = Some bvt ->
  merge_refines bvt -> wf bvt = true ->
  inv h r hc tres ->
  exists h1,
    inv h r h1 (tree_merge_key tres (key, bvt)) /\
    exists n0, forall n, n0 <= n ->
      Store.merge_key (Store.merge_dict n) (Store.py_eq n) r b hc key = Some h1.
Proof.
  intros Hr Hch Hb Hfb Hkb Hrec Hwf Hinv.
  pose proof (lookup_reads _ _ _ Hfb key) as Hlb. rewrite Hkb in Hlb.
  destruct (Dict.lookup key xbd) as [bv|] eqn:Hkx; [|contradiction].
  pose proof (inv_preserves _ _ _ _ Hinv _ _ Hb) as Hb'.
  pose proof (reads_preserved _ _ _ _ (inv_preserves _ _ _ _ Hinv) Hlb) as Hbv.
  pose proof (inv_reads _ _ _ _ Hinv) as Hrd. apply reads_dict_iff in Hrd.
  destruct Hrd as (r' & rd & [= <-] & Hnr & Hfr).
  assert (In bv (obj_vals (ODict xbd))) as Hbin.
  { cbn. apply lookup_some_in in Hkx.
    change bv with (snd (key, bv)). now apply in_map. }
  pose proof (member_storable _ _ _ _ _ _ _ Hr Hch Hinv Hb' Hbin) as Hstor.
  pose proof (lookup_reads _ _ _ Hfr key) as Hlr.
  unfold Store.merge_key, get_dict. rewrite Hnr, Hb', Hkx.
  destruct (Dict.lookup key tres) as [rvt|] eqn:Hkt,
           (Dict.lookup key rd) as [rv|] eqn:Hkr; try contradiction.
  - (* key in result *)
    rewrite (isinstance_reads _ _ _ Hlr), (isinstance_reads _ _ _ Hbv).
    destruct (is_dict rvt && is_dict bvt) eqn:Hboth.
    + apply andb_true_iff in Hboth. destruct Hboth as [H1 H2].
      destruct rvt as [| | | | |rdt]; try discriminate.
      destruct bvt as [| | | | |bdt]; try discriminate.
      pose proof Hlr as Hlr'. apply reads_dict_iff in Hlr'.
      destruct Hlr' as (p & ? & -> & _ & _).
      pose proof Hbv as Hbv'. apply reads_dict_iff in Hbv'.
      destruct Hbv' as (q & ? & -> & _ & _).
      destruct (Hrec hc p q rdt bdt eq_refl (inv_closed _ _ _ _ Hinv) Hwf Hlr Hbv)
        as (h1 & m & Hpost & n1 & Hn1).
      pose proof (inv_after_call _ _ _ _ _ _ _ Hinv Hpost) as Hinv1.
      destruct (post_fresh _ _ _ _ Hpost) as [Hm1 Hm2].
      pose proof (inv_bound _ _ _ _ Hinv) as Hrb.
      destruct (inv_setitem h r h1 tres key (VDict (tree_merge rdt bdt)) (PRef m)
                  Hr Hch Hinv1 (post_reads _ _ _ _ Hpost)) as (h2 & Hset & Hinv2).
      { intros l [= <-]. split; [lia|]. split; [lia|]. intros l0 Hl0 _. lia. }
      exists h2. split.
      * rewrite (merge_key_present _ _ _ _ Hkt). cbn [merge_val].
        now rewrite <- (set_present _ _ _ _ Hkt).
      * exists n1. intros n Hn. now rewrite (Hn1 n Hn).
    + destruct (py_eq_refines hc rvt rv bvt bv Hlr Hbv) as [n1 Hn1].
      assert (tree_merge_key tres (key, bvt) =
              if tree_eq rvt bvt then tres else Dict.set key bvt tres) as Hstep.
      { rewrite (set_present _ _ _ _ Hkt). cbn. rewrite Hkt.
        destruct rvt; try reflexivity. destruct bvt; try reflexivity.
        discriminate. }
      rewrite Hstep. destruct (tree_eq rvt bvt) eqn:Heq.
      * exists hc. split; [assumption|]. exists n1. intros n Hn.
        now rewrite (Hn1 n Hn).
      * destruct (inv_setitem h r hc tres key bvt bv Hr Hch Hinv Hbv Hstor)
          as (h2 & Hset & Hinv2).
        exists h2. split; [assumption|]. exists n1. intros n Hn.
        now rewrite (Hn1 n Hn).
  - (* a new key *)
    destruct (inv_setitem h r hc tres key bvt bv Hr Hch Hinv Hbv Hstor)
      as (h2 & Hset & Hinv2).
    exists h2. split.
    + rewrite (merge_key_absent _ _ _ Hkt).
      now rewrite <- (set_absent _ _ _ Hkt).
    + exists 0. intros n _. exact Hset.
Qed.

(** The rest of the loop. *)
Lemma for_key_refines h r b bfull xbd :
  r = List.length h -> closed h = true ->
  nth_error h b = Some (ODict xbd) ->
  Forall2 (entry_reads h) bfull xbd ->
  NoDup (map fst bfull) ->
  forall rest,
    incl rest bfull ->
    Forall (fun kv => merge_refines (snd kv)) rest ->
    Forall (fun kv => wf (snd kv) = true) rest ->
    forall hc tres,
      inv h r hc tres ->
      exists h',
        inv h r h' (fold_left tree_merge_key rest tres) /\
        exists n0, forall n, n0 <= n ->
          for_key (Store.merge_dict n) (Store.py_eq n) r b (map fst rest) hc
          = Some h'.
Proof.
  intros Hr Hch Hb Hfb Hnd.
  induction rest as [|[key bvt] rest IH]; intros Hincl Hrec Hwf hc tres Hinv.
  - exists hc. split; [assumption|]. exists 0. reflexivity.
  - inversion Hrec as [|? ? Hrec1 Hrec']; subst.
    inversion Hwf as [|? ? Hwf1 Hwf']; subst. cbn [snd] in Hrec1, Hwf1.
    assert (Dict.lookup key bfull = Some bvt) as Hkb.
    { apply lookup_in_nodup; [assumption|]. apply Hincl. now left. }
    destruct (merge_key_refines h (List.length h) b bfull xbd key bvt hc tres
                eq_refl Hch Hb Hfb Hkb Hrec1 Hwf1 Hinv)
      as (h1 & Hinv1 & n1 & Hn1).
    destruct (IH (fun x Hx => Hincl x (or_intror Hx)) Hrec' Hwf' h1 _ Hinv1)
      as (h' & Hinv' & n2 & Hn2).
    exists h'. split; [exact Hinv'|].
    exists (Nat.max n1 n2). intros n Hn. cbn [map fst for_key].
    rewrite (Hn1 n) by lia. apply Hn2. lia.
Qed.

Lemma keys_reads h d xd :
  Forall2 (entry_reads h) d xd -> map fst xd = map fst d.
Proof.
  induction 1 as [|? ? ? ? [Hk _] _ IH]; cbn; [reflexivity|]. congruence.
Qed.

Lemma merge_dict_refines (tb : value) : merge_refines tb.
Proof.
  induction tb as [| ? | ? | ? | ? _ | d IH] using value_nested_ind;
    intros h a0 b0 ta bd Heq Hch Hwf Ha Hb; try discriminate.
  injection Heq as <-.
  pose proof Ha as Ha'. apply reads_dict_iff in Ha'.
  destruct Ha' as (a' & ad & [= <-] & Hna & Hfa).
  pose proof Hb as Hb'. apply reads_dict_iff in Hb'.
  destruct Hb' as (b' & xbd & [= <-] & Hnb & Hfb).
  assert (inv h (List.length h) (h ++ [ODict ad]) ta) as Hinv.
  { constructor.
    - apply closed_alloc; [assumption|]. intros l Hin.
      rewrite closed_spec in Hch. eapply Hch; [exact Hna|exact Hin].
    - rewrite length_app. cbn. lia.
    - intros l o Hl. now apply nth_error_alloc_old.
    - intros l _ Hul q o Hq Hin.
      destruct (Nat.lt_ge_cases q (List.length h)) as [Hlt|Hge].
      + rewrite nth_error_app1 in Hq by assumption. exact (Hul _ _ Hq Hin).
      + rewrite nth_error_app2 in Hq by assumption.
        destruct (q - List.length h) as [|[|k]]; cbn in Hq; try discriminate.
        injection Hq as <-. exact (Hul _ _ Hna Hin).
    - apply reads_dict_iff. exists (List.length h), ad.
      split; [reflexivity|]. split; [apply nth_error_alloc_new|].
      eapply Forall2_impl; [|exact Hfa].
      intros kt kx [Hk Hx]. split; [assumption|].
      eapply reads_preserved; [|exact Hx].
      intros l o Hl. now apply nth_error_alloc_old. }
  destruct (for_key_refines h (List.length h) b0 d xbd eq_refl Hch Hnb Hfb
              (wf_dict_nodup d Hwf) d (incl_refl d) IH (wf_dict_entries d Hwf)
              _ _ Hinv)
    as (h' & Hinv' & n0 & Hn0).
  exists h', (List.length h). split.
  - rewrite merge_dict_unfold. unfold Dict.copy.
    destruct Hinv' as [Hc' Hb'' Hp' Hu' Hr']. constructor; try assumption.
    + lia.
    + intros l Hl. apply Hu'. lia.
  - exists (S n0). intros [|n] Hn; [lia|]. cbn [Store.merge_dict].
    unfold get_dict. rewrite Hna, Hnb. cbn [alloc]. unfold Dict.copy, Dict.keys.
    rewrite (keys_reads _ _ _ Hfb), (Hn0 n) by lia. reflexivity.
Qed.

End MergeFacts.

(** On a key that both have, and unless both values are mappings, the
    result holds a value equal to [b]'s: [b]'s own, or [a]'s when the two
    compare equal. *)
Lemma merge_val_leaf (av bv : value) :
  is_dict av && is_dict bv = false -> wf bv = true ->
  py_eq (merge_val av bv) bv = true /\
  (py_eq av bv = false -> merge_val av bv = bv) /\
  (py_eq av bv = true -> merge_val av bv = av).
Proof.
  intros Hnd Hwf.
  assert (merge_val av bv = if py_eq av bv then av else bv) as ->.
  { unfold merge_val. destruct av; try reflexivity.
    destruct bv; try reflexivity. discriminate. }
  destruct (py_eq av bv) eqn:E.
  - split; [exact E|]. split; [discriminate|reflexivity].
  - split; [now apply py_eq_refl|]. split; [reflexivity|discriminate].
Qed.

Lemma merge_val_dict (ad bd : dict) :
  merge_val (VDict ad) (VDict bd) = VDict (merge_dict ad bd).
Proof. reflexivity. Qed.

(** C2.  [merge_dict(a, b)], called on two dict objects of a store without
    dangling references, returns a new object [r]; the tree it holds is
    the merge of the trees of [a] and [b]: a key of [a] alone keeps
    [a]'s value, a key of [b] alone gets [b]'s, a key under which both
    hold mappings holds their merge, and any other common key holds a
    value equal ([==]) to [b]'s, which is [b]'s own unless [a]'s compares
    equal to it; merging with an empty dict on either side gives the other
    operand back; and every object that was in the store before the call,
    [a] and [b] among them, is left as it was. *)
Theorem merge_dict_spec (h : Store.heap) (a b : Store.loc) (ta tb : dict) :
  Store.closed h = true ->
  wf_dict ta = true -> wf_dict tb = true ->
  Store.reads h (VDict ta) (Store.PRef a) = true ->
  Store.reads h (VDict tb) (Store.PRef b) = true ->
  exists (h' : Store.heap) (r : Store.loc),
    (exists n0, forall n, n0 <= n -> Store.merge_dict n h a b = Some (h', r)) /\
    (* a new tree *)
    List.length h <= r /\
    Store.reads h' (VDict (merge_dict ta tb)) (Store.PRef r) = true /\
    wf_dict (merge_dict ta tb) = true /\
    (* key by key *)
    (forall k,
       match Dict.lookup k ta, Dict.lookup k tb with
       | Some av, None => Dict.lookup k (merge_dict ta tb) = Some av
       | None, Some bv => Dict.lookup k (merge_dict ta tb) = Some bv
       | None, None => Dict.lookup k (merge_dict ta tb) = None
       | Some av, Some bv =>
           if is_dict av && is_dict bv then
             exists ad bd, av = VDict ad /\ bv = VDict bd /\
               Dict.lookup k (merge_dict ta tb) = Some (VDict (merge_dict ad bd))
           else
             exists rv, Dict.lookup k (merge_dict ta tb) = Some rv /\
               py_eq rv bv = true /\ (py_eq av bv = false -> rv = bv)
       end) /\
    (* the empty dict is neutral *)
    (tb = [] -> merge_dict ta tb = ta) /\
    (ta = [] -> merge_dict ta tb = tb) /\
    (* neither a nor b is mutated *)
    (forall l o, nth_error h l = Some o -> nth_error h' l = Some o) /\
    Store.reads h' (VDict ta) (Store.PRef a) = true /\
    Store.reads h' (VDict tb) (Store.PRef b) = true.
Proof.
  intros Hc Hwa Hwb Ha Hb.
  destruct (MergeFacts.merge_dict_refines (VDict tb) h a b ta tb eq_refl Hc Hwb Ha Hb)
    as (h' & r & [Hc' Hfr Hp Hu Hr] & Hfuel).
  exists h', r. split; [exact Hfuel|]. split; [lia|]. split; [exact Hr|].
  split; [now apply wf_merge_dict|]. split.
  { intros k. rewrite (merge_dict_lookup ta tb k (wf_dict_nodup tb Hwb)).
    destruct (Dict.lookup k ta) as [av|] eqn:Eka,
             (Dict.lookup k tb) as [bv|] eqn:Ekb; try reflexivity.
    destruct (is_dict av && is_dict bv) eqn:Hd.
    - apply andb_true_iff in Hd. destruct Hd as [H1 H2].
      destruct av as [| | | | |ad]; try discriminate.
      destruct bv as [| | | | |bd]; try discriminate.
      exists ad, bd. repeat split.
    - destruct (merge_val_leaf av bv Hd (wf_lookup _ _ _ Hwb Ekb))
        as (H1 & H2 & _).
      exists (merge_val av bv). repeat split; assumption. }
  split; [intros ->; reflexivity|].
  split; [intros ->; apply merge_dict_empty_l, wf_dict_nodup, Hwb|].
  split; [exact Hp|].
  split; eapply StoreFacts.reads_preserved; eassumption.
Qed.

Lemma merge_dict_spec_witness :
  exists (h' : Store.heap) (r : Store.loc),
    (exists n0, forall n, n0 <= n ->
       Store.merge_dict n ex_store 1 3 = Some (h', r)) /\
    Store.reads h' (VDict (merge_dict ex_tree_a ex_tree_b)) (Store.PRef r) = true /\
    (forall l o, nth_error ex_store l = Some o -> nth_error h' l = Some o).
Proof.
  destruct (merge_dict_spec ex_store 1 3 ex_tree_a ex_tree_b)
    as (h' & r & H1 & _ & H3 & _ & _ & _ & _ & H8 & _); try reflexivity.
  exists h', r. split; [exact H1|]. split; [exact H3|exact H8].
Defined.

(** ** The template fragment at work *)

Example jinja_parse_ex :
  Jinja.parse "FROM {{ _source.name }}:{{_source.tag}} x"
  = Val [Jinja.Data "FROM "; Jinja.Output "_source" ["name"]; Jinja.Data ":";
         Jinja.Output "_source" ["tag"]; Jinja.Data " x"].
Proof. reflexivity. Qed.

Example py_str_ex : Jinja.py_str (VInt (-42)) = Val "-42".
Proof. reflexivity. Qed.

(** ** TagCandidate.selected *)

Section SelectionFacts.
Variable re_search : string -> string -> bool.

Lemma selected_loop_xor negate selectors select :
  selected_loop re_search negate selectors select =
  xorb (existsb (fun selector => re_search selector select) selectors) negate.
Proof.
  induction selectors as [|s rest IH]; cbn.
  - now destruct negate.
  - destruct (re_search s select); cbn; [now destruct negate|exact IH].
Qed.

(** C1.  [selected] is false for an ineligible candidate, where
    eligible is [primary or (primary == only_primary)]; for an eligible
    one with a non-empty [select] and some selectors it is (some
    selector matches [select]) xor [negate]; for an eligible one
    without selectors or without [select] it is [not negate].  A
    candidate restricted to the primary tag is never selected for
    another tag. *)
Theorem selected_spec (self : TagCandidate) (select : option string)
        (primary : bool) :
  let eligible := primary || Bool.eqb primary (only_primary self) in
  selected re_search self select primary =
    (if negb eligible then false
     else if truthy select && negb (Nat.eqb (List.length (selectors self)) 0)
          then xorb (existsb (fun selector =>
                                re_search selector (select_text select))
                             (selectors self))
                    (negate self)
          else negb (negate self))
  /\ (forall t sels neg,
        selected re_search {| template := t; selectors := sels;
                    only_primary := true; negate := neg |} select false
        = false).
Proof.
  split.
  - unfold selected.
    destruct (primary || Bool.eqb primary (only_primary self)); cbn [negb];
      [|reflexivity].
    destruct (truthy select && _); [|reflexivity].
    apply selected_loop_xor.
  - reflexivity.
Qed.
End SelectionFacts.

Example selected_ex1 :
  selected prefix_search
    {| template := "t"; selectors := ["^v"]; only_primary := false; negate := false |}
    (Some "v1.2") false = true.
Proof. reflexivity. Qed.

Example selected_ex2 :
  selected prefix_search
    {| template := "t"; selectors := ["^v"]; only_primary := false; negate := true |}
    (Some "v1") false = false.
Proof. reflexivity. Qed.

Example selected_ex3 :
  selected prefix_search
    {| template := "t"; selectors := ["^v"]; only_primary := false; negate := false |}
    (Some "beta") false = false.
Proof. reflexivity. Qed.

(** ** Rendering: undefined variables *)

(** A template of a strict environment fails on a missing variable: this
    is how [BuildVariant] compiles its Dockerfile template. *)
Lemma strict_render_missing :
  Jinja.render (Jinja.from_string strict_environment [Jinja.Output "version" []]) []
  = Exn (UndefinedError "version").
Proof. reflexivity. Qed.

(** The passes after the first use the strict environment made by
    [render_template]. *)
Lemma later_pass_missing (n : nat) :
  TagCandidate_render (S (S n))
    {| template := "{{ a }}"; selectors := []; only_primary := false;
       negate := false |}
    [("a", VStr "{{ version }}")]
  = Exn (UndefinedError "version").
Proof. reflexivity. Qed.

(** C3 (the code departs from it).  [TagCandidate.render] compiles its
    template with [Template(source)], whose environment is the default,
    lenient one: on the first pass a variable missing from the variable
    set is rendered as the empty string and no error is raised. *)
Theorem tag_render_missing_variable (n : nat) :
  TagCandidate_render (S n)
    {| template := "{{ version }}"; selectors := []; only_primary := false;
       negate := false |}
    []
  = Val EmptyString.
Proof. reflexivity. Qed.

(** ** Rendering: the number of passes *)












Example self_reference_source :
  Jinja.Template_new "{{ x }}" = Val self_reference_template.
Proof. reflexivity. Qed.






(** ** Builder.build_image *)

Lemma search_built_nonempty (s image_id : string) :
  search_built s = Some image_id -> image_id <> EmptyString.
Proof.
  assert (forall s, match_built s = Some image_id -> image_id <> EmptyString)
    as Hhere.
  { intros s0. unfold match_built. destruct (strip_prefix _ s0) as [r|];
      [|discriminate].
    destruct (take_hex r); [discriminate|]. intros [= <-]. discriminate. }
  induction s as [|c s IH]; cbn [search_built];
    destruct (match_built _) as [found|] eqn:E; try discriminate.
  - intros H. injection H as H. subst found. exact (Hhere _ E).
  - exact IH.
Qed.

Example search_built_ex :
  search_built "Step 3/3 done. Successfully built 0a1b2c3d4e5f (x)"
  = Some "0a1b2c3d4e5f"%string.
Proof. reflexivity. Qed.

Lemma build_image_lines_ok (events : list engine_event) (s : state) :
  no_error_event events = true ->
  exists s', build_image_lines events s = (Val tt, s') /\
             self_variables s' = self_variables s /\
             files_defaults s' = files_defaults s.
Proof.
  revert s. induction events as [|e rest IH]; intros s Hok.
  - exists s. repeat split.
  - cbn in Hok. apply andb_true_iff in Hok. destruct Hok as [He Hrest].
    cbn [build_image_lines]. unfold bind.
    destruct (stream e) as [x|], (status e) as [y|], (error e) as [z|];
      try discriminate; cbn;
      match goal with
      | |- context [build_image_lines rest ?s0] =>
          destruct (IH s0 Hrest) as (s' & E & Hv & Hf);
          exists s'; rewrite E; repeat split; assumption
      end.
Qed.

(** With a success marker in the last event and no error event before,
    [build_image] returns the identifier. *)
Lemma build_image_success (w : World) (ctx : archive) (s : state)
      (image_id : string) :
  no_error_event (engine_build w ctx) = true ->
  success_marker (engine_build w ctx) = Some image_id ->
  fst (build_image w ctx s) = Val image_id.
Proof.
  intros Hok Hm. unfold build_image, bind, print, emit. cbn.
  match goal with
  | |- context [build_image_lines _ ?s0] =>
      destruct (build_image_lines_ok _ s0 Hok) as (s' & E & _)
  end.
  rewrite E. unfold success_marker in Hm.
  destruct (engine_build w ctx) as [|first rest]; [discriminate|].
  destruct (stream (last (first :: rest) first)) as [x|]; [|discriminate].
  rewrite Hm. apply search_built_nonempty in Hm.
  destruct image_id; [congruence|reflexivity].
Qed.

(** Without a success marker in the last event, and no error event,
    the name [image_id] is read before it was ever bound. *)
Lemma build_image_no_marker (w : World) (ctx : archive) (s : state) :
  engine_build w ctx <> [] ->
  no_error_event (engine_build w ctx) = true ->
  success_marker (engine_build w ctx) = None ->
  fst (build_image w ctx s) = Exn (UnboundLocalError "image_id").
Proof.
  intros Hne Hok Hm. unfold build_image, bind, print, emit. cbn.
  match goal with
  | |- context [build_image_lines _ ?s0] =>
      destruct (build_image_lines_ok _ s0 Hok) as (s' & E & _)
  end.
  rewrite E. unfold success_marker in Hm.
  destruct (engine_build w ctx) as [|first rest]; [congruence|].
  destruct (stream (last (first :: rest) first)) as [x|];
    [rewrite Hm|]; reflexivity.
Qed.

(** C8 (the code departs from it).  A stream that ends with an event
    without a [stream] key, here a status line, does not end in a
    [BuildError]: [build_image] fails with [UnboundLocalError]. *)
Theorem build_image_last_event_without_stream :
  fst (build_image
         (with_engine_build example_world
            (fun _ => [stream_event "Step 1/1 : FROM alpine";
                       status_event "Pulling from library/alpine"]))
         [DockerfileMember "FROM alpine"] (initial_state []))
  = Exn (UnboundLocalError "image_id").
Proof. reflexivity. Qed.

(** ** Tag definitions that share a template *)

Lemma keep_first_in (l : list string) x : In x (keep_first l) <-> In x l.
Proof.
  induction l as [|y l IH]; cbn; [tauto|].
  rewrite filter_In, IH, negb_true_iff, String.eqb_neq.
  destruct (String.eqb_spec y x); [tauto|]. split; [tauto|].
  intros [H|H]; [congruence|]. right. split; [assumption|congruence].
Qed.

Lemma keep_first_nodup (l : list string) : NoDup (keep_first l).
Proof.
  induction l as [|y l IH]; cbn; constructor.
  - rewrite filter_In, negb_true_iff, String.eqb_neq. tauto.
  - now apply NoDup_filter.
Qed.

Lemma keep_first_snoc (l : list string) k :
  keep_first (l ++ [k]) =
  if existsb (String.eqb k) l then keep_first l else keep_first l ++ [k].
Proof.
  induction l as [|x l IH]; cbn; [reflexivity|].
  rewrite IH. destruct (String.eqb_spec k x) as [->|Hne]; cbn.
  - destruct (existsb (String.eqb x) l); [reflexivity|].
    rewrite filter_app. cbn. rewrite String.eqb_refl. cbn.
    now rewrite app_nil_r.
  - destruct (existsb (String.eqb k) l); [reflexivity|].
    rewrite filter_app. cbn.
    destruct (String.eqb_spec k x); [contradiction|reflexivity].
Qed.

Lemma last_with_snoc t (cs : list TagCandidate) c :
  last_with t (cs ++ [c]) =
  if String.eqb t (template c) then Some c else last_with t cs.
Proof.
  induction cs as [|x cs IH]; cbn; [reflexivity|].
  rewrite IH. destruct (String.eqb t (template c)); reflexivity.
Qed.

Lemma keys_set {V} key (v : V) (d : list (string * V)) :
  Dict.keys (Dict.set key v d) =
  if existsb (String.eqb key) (Dict.keys d) then Dict.keys d
  else Dict.keys d ++ [key].
Proof.
  unfold Dict.set, Dict.mem, Dict.keys.
  assert (existsb (String.eqb key) (map fst d) =
          match Dict.lookup key d with Some _ => true | None => false end) as ->.
  { induction d as [|[k x] d IH]; cbn; [reflexivity|].
    destruct (String.eqb key k); [reflexivity|exact IH]. }
  destruct (Dict.lookup key d).
  - apply keys_replace.
  - now rewrite map_app.
Qed.

Lemma lookup_set {V} key (v : V) (d : list (string * V)) k :
  Dict.lookup k (Dict.set key v d) =
  if String.eqb k key then Some v else Dict.lookup k d.
Proof.
  unfold Dict.set, Dict.mem. destruct (String.eqb_spec k key) as [->|Hne].
  - destruct (Dict.lookup key d) eqn:E.
    + now rewrite lookup_replace_same, E.
    + rewrite lookup_app, E. cbn. now rewrite String.eqb_refl.
  - destruct (Dict.lookup key d) eqn:E.
    + now apply lookup_replace_other.
    + rewrite lookup_app. destruct (Dict.lookup k d); [reflexivity|]. cbn.
      destruct (String.eqb_spec k key); [contradiction|reflexivity].
Qed.

Lemma TagCandidate_kw_template (tag : dict) c key :
  TagCandidate_kw tag = Val c -> tag_template tag = Val key ->
  template c = key.
Proof.
  unfold TagCandidate_kw, tag_template.
  destruct (negb _); [discriminate|].
  destruct (Dict.lookup "template" tag) as [[| | |s| |]|]; try discriminate.
  destruct (match Dict.lookup "selectors" tag with
            | Some (VList l) => strings_of l
            | Some _ => None
            | None => Some []
            end); [|discriminate].
  destruct (match Dict.lookup "only_primary" tag with
            | Some (VBool b) => Some b
            | Some _ => None
            | None => Some false
            end); [|discriminate].
  destruct (match Dict.lookup "negate" tag with
            | Some (VBool b) => Some b
            | Some _ => None
            | None => Some false
            end); [|discriminate].
  intros [= <-] [= <-]. reflexivity.
Qed.

(** The loop, started on what the earlier definitions [before] left. *)
Lemma collect_tags_spec (defs : list dict) :
  forall (before : list TagCandidate) (acc self_tags : list (string * TagCandidate)),
    Dict.keys acc = keep_first (map template before) ->
    (forall t, Dict.lookup t acc = last_with t before) ->
    collect_tags defs acc = Val self_tags ->
    exists candidates,
      Forall2 (fun tag c => TagCandidate_kw tag = Val c) defs candidates /\
      Dict.keys self_tags = keep_first (map template (before ++ candidates)) /\
      (forall t, Dict.lookup t self_tags = last_with t (before ++ candidates)).
Proof.
  induction defs as [|tag rest IH]; intros before acc self_tags Hk Hl Hc.
  - cbn in Hc. injection Hc as <-. exists []. rewrite app_nil_r.
    split; [constructor|]. split; assumption.
  - cbn [collect_tags] in Hc.
    destruct (TagCandidate_kw tag) as [c| |] eqn:Ec; try discriminate.
    cbn [res_bind] in Hc.
    destruct (tag_template tag) as [key| |] eqn:Ek; try discriminate.
    cbn [res_bind] in Hc.
    pose proof (TagCandidate_kw_template _ _ _ Ec Ek) as Hkey.
    assert (Dict.keys (Dict.set key c acc)
            = keep_first (map template (before ++ [c]))) as Hk2.
    { rewrite keys_set, Hk, map_app. cbn [map]. rewrite keep_first_snoc, Hkey.
      assert (existsb (String.eqb key) (keep_first (map template before))
              = existsb (String.eqb key) (map template before)) as ->;
        [|reflexivity].
      apply eq_true_iff_eq. rewrite !existsb_exists. split.
      * intros (x & Hin & Hx). exists x. split; [now apply keep_first_in|exact Hx].
      * intros (x & Hin & Hx). exists x. split; [now apply keep_first_in|exact Hx]. }
    assert (forall t, Dict.lookup t (Dict.set key c acc)
                      = last_with t (before ++ [c])) as Hl2.
    { intros t. rewrite lookup_set, last_with_snoc, Hkey, Hl. reflexivity. }
    destruct (IH (before ++ [c]) _ _ Hk2 Hl2 Hc) as (cs & Hf & Hk' & Hl').
    exists (c :: cs). rewrite <- app_assoc in Hk', Hl'. cbn in Hk', Hl'.
    split; [constructor; assumption|]. split; assumption.
Qed.

Lemma render_tags_loop_entries (w : World) (fuel : nat) (self : BuildVariant.t)
      (variables : dict) (select : option string) (primary : bool) :
  NoDup (Dict.keys (BuildVariant.tags self)) ->
  forall entries acc,
    incl entries (BuildVariant.tags self) ->
    BuildVariant.render_tags_loop w fuel self (Dict.keys entries) variables
                                  select primary acc
    = render_each fuel (merge_dict (BuildVariant.variables self) variables)
                  (filter (fun c => selected (re_search w) c select primary)
                          (map snd entries))
                  acc.
Proof.
  intros Hnd. induction entries as [|[k c] rest IH]; intros acc Hincl.
  - reflexivity.
  - cbn [Dict.keys map fst BuildVariant.render_tags_loop snd filter].
    assert (Dict.lookup k (BuildVariant.tags self) = Some c) as ->.
    { apply lookup_in_nodup; [exact Hnd|]. apply Hincl. now left. }
    assert (incl rest (BuildVariant.tags self)) as Hrest.
    { intros x Hx. apply Hincl. now right. }
    destruct (selected (re_search w) c select primary).
    + cbn [render_each].
      destruct (TagCandidate_render fuel c _); cbn [res_bind]; try reflexivity.
      apply (IH _ Hrest).
    + apply (IH _ Hrest).
Qed.

Lemma entries_of_keys {V} (d : list (string * V)) :
  NoDup (Dict.keys d) ->
  d = flat_map (fun k => match Dict.lookup k d with
                         | Some v => [(k, v)]
                         | None => []
                         end) (Dict.keys d).
Proof.
  unfold Dict.keys. induction d as [|[k v] d IH]; intros Hnd; [reflexivity|].
  inversion Hnd as [|? ? Hk Hd]; subst. cbn. rewrite String.eqb_refl. cbn.
  f_equal. rewrite (IH Hd) at 1. clear IH.
  assert (forall l, incl l (map fst d) ->
            flat_map (fun k0 => match Dict.lookup k0 d with
                                | Some v0 => [(k0, v0)]
                                | None => []
                                end) l
            = flat_map (fun k0 => match (if String.eqb k0 k then Some v
                                         else Dict.lookup k0 d) with
                                  | Some v0 => [(k0, v0)]
                                  | None => []
                                  end) l) as Hext.
  { induction l as [|x l IHl]; intros Hincl; [reflexivity|]. cbn.
    rewrite IHl by (intros y Hy; apply Hincl; now right).
    destruct (String.eqb_spec x k) as [->|_]; [|reflexivity].
    exfalso. apply Hk. apply Hincl. now left. }
  apply Hext, incl_refl.
Qed.

(** The loop keeps one candidate for each template string: the one made
    from the last definition with it, at the place of the first; and
    [render_tags] renders the selected candidates in that order. *)
Lemma collect_tags_order (w : World) (build_tags config_tags : list dict)
        (self : BuildVariant.t) :
  collect_tags (build_tags ++ config_tags) [] = Val (BuildVariant.tags self) ->
  exists candidates,
    Forall2 (fun tag c => TagCandidate_kw tag = Val c)
            (build_tags ++ config_tags) candidates /\
    Dict.keys (BuildVariant.tags self) = keep_first (map template candidates) /\
    (forall t, Dict.lookup t (BuildVariant.tags self) = last_with t candidates) /\
    BuildVariant.tags self =
      flat_map (fun t => match last_with t candidates with
                         | Some c => [(t, c)]
                         | None => []
                         end) (keep_first (map template candidates)) /\
    (forall fuel variables select primary,
        BuildVariant.render_tags w fuel self variables select primary
        = render_each fuel (merge_dict (BuildVariant.variables self) variables)
            (filter (fun c => selected (re_search w) c select primary)
                    (map snd (BuildVariant.tags self)))
            []).
Proof.
  intros Hc.
  destruct (collect_tags_spec _ [] [] _ eq_refl (fun _ => eq_refl) Hc)
    as (cs & Hf & Hk & Hl).
  cbn [app] in Hk, Hl.
  assert (NoDup (Dict.keys (BuildVariant.tags self))) as Hnd.
  { rewrite Hk. apply keep_first_nodup. }
  exists cs. split; [exact Hf|]. split; [exact Hk|]. split; [exact Hl|]. split.
  - rewrite (entries_of_keys _ Hnd) at 1. rewrite Hk.
    apply flat_map_ext. intros t. now rewrite Hl.
  - intros fuel variables select primary. unfold BuildVariant.render_tags.
    apply render_tags_loop_entries; [exact Hnd|apply incl_refl].
Qed.

(** The definitions of a variant's configuration reach the loop with
    [only_primary] set to [False], whatever they said: [merge_dict(tag,
    {'only_primary': False})] lets its second argument win. *)
Lemma TagCandidate_kw_only_primary (tag : dict) (c : TagCandidate) :
  TagCandidate_kw tag = Val c ->
  match Dict.lookup "only_primary" tag with
  | Some v => v = VBool (only_primary c)
  | None => only_primary c = false
  end.
Proof.
  unfold TagCandidate_kw. destruct (negb _); [discriminate|].
  destruct (Dict.lookup "template" tag) as [[| | |s| |]|]; try discriminate.
  destruct (Dict.lookup "selectors" tag) as [[| | | |l|]|]; try discriminate;
    try destruct (strings_of l); try discriminate;
    destruct (Dict.lookup "only_primary" tag) as [[|b| | | |]|];
    try discriminate;
    destruct (Dict.lookup "negate" tag) as [[|b'| | | |]|];
    try discriminate; intros [= <-]; reflexivity.
Qed.

Lemma config_tag_only_primary (tag : dict) (c : TagCandidate) :
  TagCandidate_kw (merge_dict tag [("only_primary", VBool false)]) = Val c ->
  only_primary c = false.
Proof.
  intros H. apply TagCandidate_kw_only_primary in H.
  assert (NoDup (map fst [("only_primary", VBool false)])) as Hnd.
  { constructor; [intros []|constructor]. }
  rewrite (merge_dict_lookup tag _ _ Hnd) in H. cbn [Dict.lookup] in H.
  change (String.eqb "only_primary" "only_primary") with true in H.
  cbn iota in H.
  destruct (Dict.lookup "only_primary" tag) as [av|].
  - destruct (only_primary c); [|reflexivity]. exfalso.
    unfold merge_val in H.
    destruct av as [| [|] | z | | |]; cbn in H; try discriminate.
    destruct (Z.eqb z 0); discriminate.
  - now injection H as <-.
Qed.

(** What [BuildVariant.__init__] hands to the loop. *)
Lemma init_tags (w : World) directory config_file template template_file
      variables (tags : list dict) (self : BuildVariant.t) :
  BuildVariant.init w directory config_file template template_file variables
                    tags = Val self ->
  exists config_tags,
    Forall (fun tag => exists raw,
              tag = merge_dict raw [("only_primary", VBool false)])
           config_tags /\
    collect_tags (tags ++ config_tags) [] = Val (BuildVariant.tags self).
Proof.
  unfold BuildVariant.init.
  destruct (BuildVariant.data w directory config_file) as [| |data|];
    try discriminate.
  destruct (Dict.lookup "tags" _) as [[| | | |l|]|]; try discriminate.
  destruct (Dict.lookup "template_file" _) as [[| | |tf| |]|]; try discriminate.
  destruct (Dict.lookup "variables" _) as [[| | | | |vs]|]; try discriminate.
  destruct (dicts_of l) as [raws|]; [|discriminate].
  destruct (collect_tags _ []) as [self_tags| |] eqn:E; try discriminate.
  cbn [res_bind]. intros [= <-]. eexists. split; [|exact E].
  apply Forall_forall. intros tag Hin. apply in_map_iff in Hin.
  destruct Hin as (raw & <- & _). now exists raw.
Qed.

(** An override variant starts from the build-level tag definitions. *)
Example override_inherits_build_tags :
  Dict.keys (BuildVariant.tags (variant_named "1.0" (the_build tagged_build)))
  = ["latest"].
Proof. reflexivity. Qed.

(** ** The candidates a variant keeps *)

Lemma py_eq_empty_list (bv : value) :
  py_eq (VList []) bv = true -> bv = VList [].
Proof.
  destruct bv as [| | | |l|]; try discriminate.
  destruct l; [reflexivity|discriminate].
Qed.

(** The loop of line 184 goes through the build-level definitions and
    then through those of the configuration file, each merged with
    [{'only_primary': False}]. *)
Lemma init_collect (w : World) directory config_file root_template
      template_file variables (tags : list dict) (self : BuildVariant.t) :
  BuildVariant.init w directory config_file root_template template_file
                    variables tags = Val self ->
  config_wf w directory config_file = true ->
  collect_tags
    (tags ++ map (fun tag => merge_dict tag [("only_primary", VBool false)])
                 (config_definitions w directory config_file)) []
  = Val (BuildVariant.tags self).
Proof.
  unfold BuildVariant.init, config_wf, config_definitions.
  destruct (BuildVariant.data w directory config_file) as [| |data|];
    try discriminate.
  intros H Hwf. pose proof (wf_dict_nodup _ Hwf) as Hnd.
  rewrite (merge_dict_lookup _ data "tags" Hnd) in H.
  cbn [Dict.lookup] in H.
  change (String.eqb "tags" "variables") with false in H.
  change (String.eqb "tags" "template_file") with false in H.
  change (String.eqb "tags" "tags") with true in H.
  cbn iota in H.
  destruct (Dict.lookup "tags" data) as [bv|] eqn:Etags.
  - unfold merge_val in H.
    assert (exists l,
               (if py_eq (VList []) bv then VList [] else bv) = VList l /\
               match bv with
               | VList l0 =>
                   match dicts_of l0 with Some ds0 => ds0 | None => [] end
               | _ => []
               end = match dicts_of l with Some ds0 => ds0 | None => [] end
               \/ forall l, (if py_eq (VList []) bv then VList [] else bv)
                            <> VList l) as Hcases.
    { destruct (py_eq (VList []) bv) eqn:E.
      - apply py_eq_empty_list in E. subst bv. exists []. left. now split.
      - destruct bv as [| | | |l|].
        1-4, 6: exists []; right; intros l0; discriminate.
        exists l. left. now split. }
    destruct Hcases as (l & [[Hl Hd]|Hno]).
    + cbn [is_dict andb] in H. rewrite Hl in H.
      destruct (Dict.lookup "template_file" _) as [[| | |tf| |]|];
        try discriminate.
      destruct (Dict.lookup "variables" _) as [[| | | | |vs]|];
        try discriminate.
      destruct (dicts_of l) as [ds|] eqn:Eds; [|discriminate].
      destruct (collect_tags _ []) as [self_tags| |] eqn:E; try discriminate.
      cbn [res_bind] in H. injection H as <-. cbn [BuildVariant.tags].
      rewrite Hd. exact E.
    + exfalso. cbn [is_dict andb] in H.
      destruct (if py_eq (VList []) bv then VList [] else bv)
        as [| | | |l0|] eqn:E; try discriminate.
      exact (Hno l0 eq_refl).
  - destruct (Dict.lookup "template_file" _) as [[| | |tf| |]|];
      try discriminate.
    destruct (Dict.lookup "variables" _) as [[| | | | |vs]|];
      try discriminate.
    cbn [dicts_of map] in *.
    destruct (collect_tags _ []) as [self_tags| |] eqn:E; try discriminate.
    cbn [res_bind] in H. injection H as <-. reflexivity.
Qed.

Lemma Forall2_map_left {A B C} (R : B -> C -> Prop) (f : A -> B) l l' :
  Forall2 R (map f l) l' -> Forall2 (fun x y => R (f x) y) l l'.
Proof.
  revert l'. induction l as [|x l IH]; intros l' H; inversion H; subst;
    constructor; auto.
Qed.

Lemma TagCandidate_kw_lookup_template (tag : dict) (c : TagCandidate) :
  TagCandidate_kw tag = Val c ->
  Dict.lookup "template" tag = Some (VStr (template c)).
Proof.
  intros H. pose proof (TagCandidate_kw_template tag c) as Ht.
  pose proof H as H0. unfold TagCandidate_kw in H0.
  destruct (negb _); [discriminate|].
  destruct (Dict.lookup "template" tag) as [[| | |s| |]|] eqn:E;
    try discriminate.
  f_equal. f_equal. symmetry. apply (Ht s H).
  unfold tag_template. now rewrite E.
Qed.

(** What line 177 makes of a well-formed definition. *)
Lemma TagCandidate_kw_config (raw : dict) (c0 : TagCandidate) :
  TagCandidate_kw raw = Val c0 ->
  TagCandidate_kw (merge_dict raw [("only_primary", VBool false)])
  = Val (config_candidate c0).
Proof.
  intros H.
  assert (NoDup (map fst [("only_primary", VBool false)])) as Hnd.
  { constructor; [intros []|constructor]. }
  unfold TagCandidate_kw in *.
  assert (forallb known_keyword
                  (Dict.keys (merge_dict raw [("only_primary", VBool false)]))
          = forallb known_keyword (Dict.keys raw)) as ->.
  { rewrite merge_dict_unfold. cbn [fold_left]. unfold Dict.copy.
    destruct (Dict.lookup "only_primary" raw) as [rv|] eqn:E.
    - rewrite (merge_key_present _ _ _ _ E). unfold Dict.keys.
      now rewrite keys_replace.
    - rewrite (merge_key_absent _ _ _ E). unfold Dict.keys.
      rewrite map_app, forallb_app. cbn. now rewrite andb_true_r. }
  destruct (negb (forallb known_keyword (Dict.keys raw))); [discriminate|].
  rewrite !(merge_dict_lookup raw _ _ Hnd). cbn [Dict.lookup].
  change (String.eqb "template" "only_primary") with false.
  change (String.eqb "selectors" "only_primary") with false.
  change (String.eqb "negate" "only_primary") with false.
  change (String.eqb "only_primary" "only_primary") with true.
  cbn iota.
  destruct (Dict.lookup "template" raw) as [[| | |t| |]|]; try discriminate.
  destruct (match Dict.lookup "selectors" raw with
            | Some (VList l) => strings_of l
            | Some _ => None
            | None => Some []
            end) as [sels|] eqn:Es; [|discriminate].
  assert (match Dict.lookup "selectors" raw with
          | Some av => Some av
          | None => None
          end = Dict.lookup "selectors" raw) as Hsel
      by (destruct (Dict.lookup "selectors" raw); reflexivity).
  assert (match Dict.lookup "negate" raw with
          | Some av => Some av
          | None => None
          end = Dict.lookup "negate" raw) as Hneg
      by (destruct (Dict.lookup "negate" raw); reflexivity).
  rewrite Hsel, Hneg, Es.
  destruct (Dict.lookup "only_primary" raw) as [[|b| | | |]|];
    try discriminate;
    destruct (match Dict.lookup "negate" raw with
              | Some (VBool b0) => Some b0
              | Some _ => None
              | None => Some false
              end) as [neg|]; try discriminate;
    injection H as <-; try reflexivity.
  destruct b; reflexivity.
Qed.

Lemma TagCandidate_kw_declared (tag : dict) (c : TagCandidate) :
  TagCandidate_kw tag = Val c -> c = declared_candidate tag.
Proof.
  unfold TagCandidate_kw, declared_candidate, declared_template,
    declared_selectors, declared_flag.
  destruct (negb _); [discriminate|].
  destruct (Dict.lookup "template" tag) as [[| | |s| |]|]; try discriminate.
  destruct (Dict.lookup "selectors" tag) as [[| | | |l|]|]; try discriminate;
    try destruct (strings_of l); try discriminate;
    destruct (Dict.lookup "only_primary" tag) as [[|b| | | |]|];
    try discriminate;
    destruct (Dict.lookup "negate" tag) as [[|b'| | | |]|];
    try discriminate; intros [= <-]; reflexivity.
Qed.

Lemma lookup_config_definition (raw : dict) (k : string) :
  k <> "only_primary"%string ->
  Dict.lookup k (merge_dict raw [("only_primary", VBool false)])
  = Dict.lookup k raw.
Proof.
  intros Hne.
  assert (NoDup (map fst [("only_primary", VBool false)])) as Hnd.
  { constructor; [intros []|constructor]. }
  rewrite (merge_dict_lookup raw _ k Hnd). cbn [Dict.lookup].
  destruct (String.eqb_spec k "only_primary"); [contradiction|].
  now destruct (Dict.lookup k raw).
Qed.

(** What line 177 and the constructor make of a definition of the
    configuration file. *)
Lemma TagCandidate_kw_config_declared (raw : dict) (c : TagCandidate) :
  TagCandidate_kw (merge_dict raw [("only_primary", VBool false)]) = Val c ->
  c = config_candidate (declared_candidate raw).
Proof.
  intros H. pose proof (config_tag_only_primary _ _ H) as Hop.
  apply TagCandidate_kw_declared in H. subst c.
  unfold config_candidate, declared_candidate in *.
  cbn [template selectors only_primary negate] in *.
  f_equal.
  - unfold declared_template.
    now rewrite lookup_config_definition by discriminate.
  - unfold declared_selectors.
    now rewrite lookup_config_definition by discriminate.
  - exact Hop.
  - unfold declared_flag.
    now rewrite lookup_config_definition by discriminate.
Qed.

Lemma candidates_declared (defs : list dict) (cs : list TagCandidate) :
  Forall2 (fun tag c => TagCandidate_kw tag = Val c) defs cs ->
  cs = map declared_candidate defs.
Proof.
  induction 1 as [|tag c defs cs Hc _ IH]; [reflexivity|].
  cbn [map]. now rewrite <- IH, <- (TagCandidate_kw_declared _ _ Hc).
Qed.

Lemma config_candidates_declared (defs : list dict) (cs : list TagCandidate) :
  Forall2 (fun tag c => TagCandidate_kw tag = Val c)
          (map (fun tag => merge_dict tag [("only_primary", VBool false)]) defs)
          cs ->
  cs = map (fun raw => config_candidate (declared_candidate raw)) defs.
Proof.
  intros H. apply Forall2_map_left in H.
  induction H as [|raw c defs cs Hc _ IH]; [reflexivity|].
  cbn [map]. now rewrite <- IH, <- (TagCandidate_kw_config_declared _ _ Hc).
Qed.

(** The candidates of a variant that was constructed. *)
Lemma init_candidates (w : World) directory config_file root_template
      template_file variables (build_tags : list dict)
      (self : BuildVariant.t) :
  BuildVariant.init w directory config_file root_template template_file
                    variables build_tags = Val self ->
  config_wf w directory config_file = true ->
  Dict.keys (BuildVariant.tags self)
  = keep_first (map template
                    (declared_candidates w directory config_file build_tags)) /\
  (forall t, Dict.lookup t (BuildVariant.tags self)
             = last_with t (declared_candidates w directory config_file
                                                build_tags)) /\
  BuildVariant.tags self =
    flat_map (fun t =>
                match last_with t (declared_candidates w directory config_file
                                                       build_tags) with
                | Some c => [(t, c)]
                | None => []
                end)
             (keep_first
                (map template
                     (declared_candidates w directory config_file build_tags))).
Proof.
  intros Hinit Hwf.
  pose proof (init_collect _ _ _ _ _ _ _ _ Hinit Hwf) as Hc.
  destruct (collect_tags_order w _ _ self Hc) as (cs & Hf & Hk & Hl & Hflat & _).
  apply Forall2_app_inv_l in Hf. destruct Hf as (cb & cc & Hfb & Hfc & ->).
  apply candidates_declared in Hfb. apply config_candidates_declared in Hfc.
  unfold declared_candidates. rewrite <- Hfb, <- Hfc.
  split; [exact Hk|]. split; [exact Hl|exact Hflat].
Qed.

(** C10, amended.  When several tag definitions of a variant, the
    build-level ones followed by those of the variant's configuration
    file, have the same template string, the variant keeps one candidate
    for it, at the place of the first such definition, and [render_tags]
    renders the selected candidates in that order.  The candidate is the
    one of the last such definition: with its selectors, its [negate]
    and its [only_primary] when that definition is a build-level one,
    and with its selectors and its [negate] but [only_primary] [False]
    when it comes from the configuration file, whatever the file
    says. *)
Theorem shared_template_tags (w : World) (directory : string)
        (config_file : option string) (root_template : option Jinja.Template)
        (template_file : string) (variables : dict) (build_tags : list dict)
        (self : BuildVariant.t) :
  BuildVariant.init w directory config_file root_template template_file
                    variables build_tags = Val self ->
  config_wf w directory config_file = true ->
  Dict.keys (BuildVariant.tags self)
  = keep_first (map template
                    (declared_candidates w directory config_file build_tags)) /\
  (forall t, Dict.lookup t (BuildVariant.tags self)
             = last_with t (declared_candidates w directory config_file
                                                build_tags)) /\
  BuildVariant.tags self =
    flat_map (fun t =>
                match last_with t (declared_candidates w directory config_file
                                                       build_tags) with
                | Some c => [(t, c)]
                | None => []
                end)
             (keep_first
                (map template
                     (declared_candidates w directory config_file build_tags))) /\
  (forall fuel variables select primary,
      BuildVariant.render_tags w fuel self variables select primary
      = render_each fuel (merge_dict (BuildVariant.variables self) variables)
          (filter (fun c => selected (re_search w) c select primary)
                  (map snd (BuildVariant.tags self)))
          []).
Proof.
  intros Hinit Hwf.
  destruct (init_candidates _ _ _ _ _ _ _ _ Hinit Hwf) as (Hk & Hl & Hflat).
  split; [exact Hk|]. split; [exact Hl|]. split; [exact Hflat|].
  pose proof (init_collect _ _ _ _ _ _ _ _ Hinit Hwf) as Hc.
  destruct (collect_tags_order w _ _ self Hc) as (_ & _ & _ & _ & _ & Hr).
  exact Hr.
Qed.

Example tags_variant_made : finished tags_variant = true.
Proof. reflexivity. Qed.

Lemma shared_template_tags_witness :
  Dict.keys (BuildVariant.tags (the_variant tags_variant))
  = ["latest"%string; "{{ _source.tag }}"%string] /\
  Dict.lookup "latest" (BuildVariant.tags (the_variant tags_variant))
  = Some {| template := "latest"; selectors := ["^v"%string];
            only_primary := false; negate := false |}.
Proof.
  destruct (shared_template_tags tags_world "variants/1.0"
              (Some "image-build.yml") None "Dockerfile.j2" []
              tags_build_definitions (the_variant tags_variant)
              eq_refl eq_refl)
    as (Hk & Hl & _).
  split; [rewrite Hk|rewrite Hl]; reflexivity.
Defined.

(** The definition of the configuration file is the last with the
    template [latest] and restricts it to the primary source tag; the
    candidate that is kept is not restricted, and is selected for a
    source tag that is not the primary one. *)
Lemma config_only_primary_not_kept :
  exists last kept,
    nth_error (config_definitions tags_world "variants/1.0"
                                  (Some "image-build.yml")) 0 = Some last /\
    TagCandidate_kw last
    = Val {| template := "latest"; selectors := ["^v"];
             only_primary := true; negate := false |} /\
    Dict.lookup "latest" (BuildVariant.tags (the_variant tags_variant))
    = Some kept /\
    only_primary kept = false /\
    selected prefix_search kept (Some "v1") false = true.
Proof.
  eexists. eexists. repeat split; reflexivity.
Qed.

(** ** Dry runs *)

Lemma quiet_ret {A} (a : A) : quiet (ret a).
Proof. intros s. reflexivity. Qed.

Lemma quiet_raise {A} (e : exn) : quiet (@raise A e).
Proof. intros s. reflexivity. Qed.

Lemma quiet_lift {A} (r : res A) : quiet (lift r).
Proof. intros s. reflexivity. Qed.

Lemma quiet_bind {A B} (m : M A) (k : A -> M B) :
  quiet m -> (forall a, quiet (k a)) -> quiet (bind m k).
Proof.
  intros Hm Hk s. unfold bind. specialize (Hm s).
  destruct (m s) as [[a|e|] s']; cbn in *; try exact Hm.
  rewrite (Hk a s'). exact Hm.
Qed.

Lemma quiet_try {A} (m : M A) handles (handler : exn -> M A) :
  quiet m -> (forall e, quiet (handler e)) -> quiet (try_except m handles handler).
Proof.
  intros Hm Hh s. unfold try_except. specialize (Hm s).
  destruct (m s) as [[a|e|] s']; cbn in *; try exact Hm.
  destruct (handles e); [|exact Hm]. rewrite (Hh e s'). exact Hm.
Qed.

Lemma quiet_emit (e : event) : is_engine_call e = false -> quiet (emit e).
Proof.
  intros He s. cbn. unfold engine_calls. rewrite filter_app. cbn.
  rewrite He. apply app_nil_r.
Qed.

Lemma quiet_print (text : string) : quiet (print text).
Proof. now apply quiet_emit. Qed.

Lemma quiet_get_variables : quiet get_variables.
Proof. intros s. reflexivity. Qed.

Lemma quiet_set_variable key v : quiet (set_variable key v).
Proof. intros s. reflexivity. Qed.

Lemma quiet_read_clock w : quiet (read_clock w).
Proof. intros s. reflexivity. Qed.

Lemma quiet_files_default w variant : quiet (files_default w variant).
Proof.
  intros s. unfold files_default.
  destruct (BuildVariant.files w variant (files_defaults s)). reflexivity.
Qed.

Lemma quiet_set_dest_tags tags : quiet (set_dest_tags tags).
Proof.
  unfold set_dest_tags. apply quiet_bind; [apply quiet_get_variables|].
  intros variables. destruct (Dict.lookup "_dest" variables) as [[]|];
    first [apply quiet_set_variable | apply quiet_raise].
Qed.

Create HintDb quiet.
#[local] Hint Resolve quiet_ret quiet_raise quiet_lift quiet_print
  quiet_get_variables quiet_set_variable quiet_read_clock quiet_files_default
  quiet_set_dest_tags : quiet.

Ltac quiet_step :=
  first [ solve [auto with quiet]
        | apply quiet_emit; reflexivity
        | apply quiet_bind; [|intros ?]
        | apply quiet_try; [|intros ?] ].

Section DryRun.
Variable w : World.
Variable fuel : nat.
Variable self : Builder.t.
Hypothesis Hdry : Builder.dry_run self = true.

Lemma quiet_call_render_tags key variant primary :
  quiet (Builder.call_render_tags w fuel self key variant primary).
Proof. unfold Builder.call_render_tags. repeat quiet_step. Qed.

Lemma quiet_call_render_dockerfile key variant :
  quiet (Builder.call_render_dockerfile fuel key variant).
Proof. unfold Builder.call_render_dockerfile. repeat quiet_step. Qed.

Lemma quiet_variant_of build key : quiet (Builder.variant_of build key).
Proof.
  unfold Builder.variant_of. destruct (Dict.lookup key _); auto with quiet.
Qed.

Lemma quiet_source_tag_body build timestamp repository source_tag
      root_excludes has_applicable_tags :
  quiet (Builder.source_tag_body w fuel self build timestamp repository
                                 source_tag root_excludes has_applicable_tags).
Proof.
  unfold Builder.source_tag_body. rewrite Hdry.
  repeat first [ apply quiet_call_render_tags
               | apply quiet_call_render_dockerfile
               | apply quiet_variant_of
               | quiet_step ].
  - destruct (Dict.lookup source_tag (Build.variants build));
      repeat first [ apply quiet_call_render_tags
                   | apply quiet_call_render_dockerfile
                   | quiet_step ].
  - match goal with a : _ * _ |- _ => destruct a as [[[tags dockerfile] files] context] end.
    unfold Builder.dry_run_report. repeat quiet_step.
Qed.

Lemma quiet_for_source_tags build timestamp repository source_tags :
  forall root_excludes has_applicable_tags,
    quiet (Builder.for_source_tags w fuel self build timestamp repository
                                   source_tags root_excludes
                                   has_applicable_tags).
Proof.
  induction source_tags as [|source_tag rest IH]; intros rx hat; cbn.
  - auto with quiet.
  - apply quiet_bind; [apply quiet_source_tag_body|]. intros r. apply IH.
Qed.

Lemma quiet_after_source_tags repository has_applicable_tags :
  quiet (Builder.after_source_tags w self repository has_applicable_tags).
Proof.
  unfold Builder.after_source_tags. rewrite Hdry, !andb_false_r.
  destruct has_applicable_tags.
  - repeat quiet_step.
    all: match goal with a : option bool |- _ => destruct a end;
      auto with quiet.
  - destruct (negb _); repeat quiet_step.
Qed.

Lemma quiet_build_body build root_excludes :
  quiet (Builder.build_body w fuel self build root_excludes).
Proof.
  unfold Builder.build_body.
  repeat first [ apply quiet_for_source_tags
               | apply quiet_after_source_tags
               | quiet_step ].
Qed.

Lemma quiet_for_builds builds :
  forall root_excludes,
    quiet (Builder.for_builds w fuel self builds root_excludes).
Proof.
  induction builds as [|build rest IH]; intros rx; cbn.
  - auto with quiet.
  - apply quiet_bind; [apply quiet_build_body|]. intros r.
    destruct (snd r); [auto with quiet|apply IH].
Qed.

Lemma quiet_collect_root_excludes builds :
  forall root_excludes,
    quiet (Builder.collect_root_excludes builds root_excludes).
Proof.
  induction builds as [|build rest IH]; intros rx; cbn.
  - auto with quiet.
  - apply quiet_bind; [apply quiet_variant_of|]. intros r. apply IH.
Qed.

Lemma quiet_build : quiet (Builder.build w fuel self).
Proof.
  unfold Builder.build.
  apply quiet_bind; [apply quiet_collect_root_excludes|].
  intros rx. apply quiet_for_builds.
Qed.
End DryRun.

(** C9.  In a dry run, whatever the manifest, the other flags and the
    state the run starts in, [build] makes no call to the engine: no
    build, no tagging, no push, no export. *)
Theorem dry_run_no_engine_call (w : World) (fuel : nat)
        (select : option string) (push save ignore_empty : bool)
        (builds : list Build.t) (s : state) :
  engine_calls
    (log (snd (Builder.build w fuel
                 {| Builder.select := select; Builder.push := push;
                    Builder.save := save; Builder.dry_run := true;
                    Builder.ignore_empty := ignore_empty;
                    Builder.builds := builds |} s)))
  = engine_calls (log s).
Proof. apply quiet_build. reflexivity. Qed.

(** ** What a step adds to the log *)

Lemma bind_val {A B} (m : M A) (k : A -> M B) s (b : B) s' :
  bind m k s = (Val b, s') ->
  exists a s1, m s = (Val a, s1) /\ k a s1 = (Val b, s').
Proof.
  unfold bind. destruct (m s) as [[a|e|] s1]; intros H; try discriminate.
  exists a, s1. split; [reflexivity|exact H].
Qed.

Lemma engine_calls_app (l1 l2 : list event) :
  engine_calls (l1 ++ l2) = engine_calls l1 ++ engine_calls l2.
Proof. apply filter_app. Qed.

Lemma build_image_lines_log (lines : list engine_event) :
  forall s r s',
    build_image_lines lines s = (r, s') ->
    exists evs, log s' = log s ++ evs /\ engine_calls evs = [] /\
                self_variables s' = self_variables s.
Proof.
  induction lines as [|e rest IH]; intros s r s' H.
  - cbn in H. injection H as <- <-. exists []. now rewrite app_nil_r.
  - cbn [build_image_lines] in H. unfold bind in H.
    destruct (stream e) as [x|], (status e) as [y|], (error e) as [z|];
      cbn in H;
      try (injection H as <- <-; exists []; now rewrite app_nil_r);
      try (destruct (IH _ _ _ H) as (evs & Hl & He & Hv); cbn in Hl, Hv;
           eexists (_ :: evs); rewrite Hl, <- app_assoc;
           split; [reflexivity|]; split; [exact He|exact Hv]).
    destruct (IH _ _ _ H) as (evs & Hl & He & Hv).
    exists evs. repeat split; assumption.
Qed.

Lemma build_image_log (w : World) (ctx : archive) s r s' :
  build_image w ctx s = (r, s') ->
  exists evs, log s' = log s ++ evs /\ engine_calls evs = [EngineBuild ctx] /\
              self_variables s' = self_variables s.
Proof.
  unfold build_image, bind, print, emit. cbn.
  destruct (build_image_lines (engine_build w ctx) _) as [[[]|e|] s1] eqn:E;
    intros H;
    destruct (build_image_lines_log _ _ _ _ E) as (evs & Hl & He & Hv);
    cbn in Hl, Hv.
  - assert (s' = s1) as ->.
    { destruct (engine_build w ctx) as [|first rest]; [now inversion H|].
      destruct (match stream _ with Some s0 => search_built s0 | None => None end)
        as [image_id|]; [|now inversion H].
      destruct (nonempty image_id); now inversion H. }
    exists (Print "  Docker build output:" :: EngineBuild ctx :: evs).
    rewrite Hl, <- !app_assoc. split; [reflexivity|]. split; [|exact Hv].
    cbn. unfold engine_calls in He. now rewrite He.
  - injection H as <- <-.
    exists (Print "  Docker build output:" :: EngineBuild ctx :: evs).
    rewrite Hl, <- !app_assoc. split; [reflexivity|]. split; [|exact Hv].
    cbn. unfold engine_calls in He. now rewrite He.
  - injection H as <- <-.
    exists (Print "  Docker build output:" :: EngineBuild ctx :: evs).
    rewrite Hl, <- !app_assoc. split; [reflexivity|]. split; [|exact Hv].
    cbn. unfold engine_calls in He. now rewrite He.
Qed.

Lemma tag_image_log (image_id repository : string) (tags : list string) :
  forall s,
    exists s', Builder.tag_image image_id repository tags s = (Val tt, s') /\
               log s' = log s ++ map (ImageTag image_id repository) tags /\
               self_variables s' = self_variables s.
Proof.
  induction tags as [|tag rest IH]; intros s.
  - exists s. cbn. now rewrite app_nil_r.
  - cbn [Builder.tag_image]. unfold bind, emit.
    match goal with
    | |- context [Builder.tag_image _ _ rest ?s0] =>
        destruct (IH s0) as (s' & E & Hl & Hv)
    end.
    exists s'. rewrite E. split; [reflexivity|]. cbn in Hl, Hv.
    split; [|exact Hv]. rewrite Hl, <- app_assoc. reflexivity.
Qed.

(** ** One turn of the loop over the source tags *)

Lemma set_variable_val key v s x s1 :
  set_variable key v s = (Val x, s1) ->
  log s1 = log s /\ self_variables s1 = Dict.set key v (self_variables s).
Proof. intros [= _ <-]. split; reflexivity. Qed.

Lemma emit_val e s x s1 :
  emit e s = (Val x, s1) ->
  log s1 = log s ++ [e] /\ self_variables s1 = self_variables s.
Proof. intros [= _ <-]. split; reflexivity. Qed.

Lemma set_dest_tags_val tags s x s1 :
  set_dest_tags tags s = (Val x, s1) ->
  log s1 = log s /\
  exists dest,
    Dict.lookup "_dest" (self_variables s1) = Some (VDict dest) /\
    Dict.lookup "tags" dest = Some (VList (map VStr tags)).
Proof.
  unfold set_dest_tags, bind, get_variables.
  destruct (Dict.lookup "_dest" (self_variables s)) as [[| | | | |dest]|];
    try discriminate.
  intros H. apply set_variable_val in H. destruct H as [Hl Hv].
  split; [exact Hl|]. rewrite Hv. eexists. split.
  - rewrite lookup_set. reflexivity.
  - rewrite lookup_set. reflexivity.
Qed.

Lemma files_default_val w variant s x s1 :
  files_default w variant s = (Val x, s1) ->
  log s1 = log s /\ self_variables s1 = self_variables s.
Proof.
  unfold files_default.
  destruct (BuildVariant.files w variant (files_defaults s)).
  intros [= _ <-]. split; reflexivity.
Qed.

Lemma call_render_tags_val w fuel self key variant primary s tags s1 :
  Builder.call_render_tags w fuel self key variant primary s = (Val tags, s1) ->
  log s1 = log s ++ [RenderTags key (self_variables s)] /\
  self_variables s1 = self_variables s /\
  BuildVariant.render_tags w fuel variant (self_variables s)
                           (Builder.select self) primary = Val tags.
Proof.
  unfold Builder.call_render_tags, bind, get_variables, emit, lift. cbn.
  intros [= E <-]. repeat split. exact E.
Qed.

Lemma call_render_dockerfile_val fuel key variant s d s1 :
  Builder.call_render_dockerfile fuel key variant s = (Val d, s1) ->
  log s1 = log s ++ [RenderDockerfile key (self_variables s)] /\
  self_variables s1 = self_variables s.
Proof.
  unfold Builder.call_render_dockerfile, bind, get_variables, emit, lift. cbn.
  intros [= E <-]. repeat split.
Qed.

Lemma variant_of_val build key s v s1 :
  Builder.variant_of build key s = (Val v, s1) -> s1 = s.
Proof.
  unfold Builder.variant_of. destruct (Dict.lookup key _); [|discriminate].
  now intros [= _ <-].
Qed.

Lemma dry_run_report_val build source_tag tags root_files files dockerfile s x s1 :
  Builder.dry_run_report build source_tag tags root_files files dockerfile s
  = (Val x, s1) ->
  exists evs, log s1 = log s ++ evs /\ engine_calls evs = [] /\
              In (Print (Builder.indent tags)) evs /\
              self_variables s1 = self_variables s.
Proof.
  unfold Builder.dry_run_report, bind, print, emit. cbn. intros [= _ <-]. cbn.
  eexists. rewrite <- !app_assoc. cbn. split; [reflexivity|].
  split; [reflexivity|]. split; [|reflexivity]. cbn. tauto.
Qed.

Lemma render_tags_no_candidates w fuel variant variables select primary :
  BuildVariant.tags variant = [] ->
  BuildVariant.render_tags w fuel variant variables select primary = Val [].
Proof. intros H. unfold BuildVariant.render_tags. now rewrite H. Qed.

Section Override.
Variable w : World.
Variable fuel : nat.
Variable self : Builder.t.

Ltac step_facts :=
  repeat match goal with
         | E : set_variable _ _ _ = (Val _, _) |- _ =>
             apply set_variable_val in E; destruct E as [? ?]
         | E : Builder.variant_of _ _ _ = (Val _, _) |- _ =>
             apply variant_of_val in E; subst
         | E : Builder.call_render_tags _ _ _ _ _ _ _ = (Val _, _) |- _ =>
             apply call_render_tags_val in E; destruct E as (? & ? & ?)
         | E : Builder.call_render_dockerfile _ _ _ _ = (Val _, _) |- _ =>
             apply call_render_dockerfile_val in E; destruct E as (? & ?)
         | E : set_dest_tags _ _ = (Val _, _) |- _ =>
             apply set_dest_tags_val in E; destruct E as (? & ? & ? & ?)
         | E : files_default _ _ _ = (Val _, _) |- _ =>
             apply files_default_val in E; destruct E as (? & ?)
         | E : emit _ _ = (Val _, _) |- _ =>
             apply emit_val in E; destruct E as (? & ?)
         end.

(** One turn of the loop for a source tag that has an override
    variant: the destination tags are the ones the override variant
    rendered. *)
Lemma override_turn (build : Build.t)
        (timestamp repository source_tag : string)
        (root_excludes : list string) (has_applicable_tags : bool)
        (variant : BuildVariant.t) (s s' : state) (r : list string * bool) :
  Dict.lookup source_tag (Build.variants build) = Some variant ->
  Builder.source_tag_body w fuel self build timestamp repository source_tag
                          root_excludes has_applicable_tags s = (Val r, s') ->
  exists variables tags events,
    log s' = log s ++ events /\
    In (RenderTags source_tag variables) events /\
    BuildVariant.render_tags w fuel variant variables (Builder.select self)
      (String.eqb source_tag (Build.source_primary build)) = Val tags /\
    (exists dest,
        Dict.lookup "_dest" (self_variables s') = Some (VDict dest) /\
        Dict.lookup "tags" dest = Some (VList (map VStr tags))) /\
    (if Builder.dry_run self then
       engine_calls events = [] /\ In (Print (Builder.indent tags)) events
     else
       match tags with
       | [] =>
           engine_calls events = [] /\
           In (Print (skip_message source_tag)) events /\
           snd r = has_applicable_tags
       | _ :: _ =>
           exists context image_id,
             engine_calls events =
               EngineBuild context :: ImagesGet image_id
                 :: map (ImageTag image_id repository) tags /\
             snd r = true
       end) /\
    (BuildVariant.tags variant = [] -> tags = []).
Proof.
  intros Hov H. unfold Builder.source_tag_body in H. rewrite Hov in H.
  repeat (apply bind_val in H; destruct H as (? & ? & ? & H)).
  match goal with
  | E : bind _ _ _ = (Val _, _) |- _ => rename E into Hb
  end.
  repeat (apply bind_val in Hb; destruct Hb as (? & ? & ? & Hb)).
  step_facts. injection Hb as <- <-. cbv beta iota in H.
  match goal with
  | E : BuildVariant.render_tags w fuel variant ?v _ _ = Val ?t |- _ =>
      rename E into Hrender; set (variables := v) in *; set (tags := t) in *
  end.
  assert (exists pre, log x24 = log s ++ pre /\ engine_calls pre = [] /\
                      In (RenderTags source_tag variables) pre) as Hpre.
  { eexists [_; _; _; _]. split; [|split].
    - rewrite H11, H10, H9, H8, H3, H6, H5, H4, H2, H1, H0.
      rewrite <- !app_assoc. reflexivity.
    - reflexivity.
    - cbn. tauto. }
  destruct Hpre as (pre & Hlog & Hquiet & Hin).
  assert (Dict.lookup "_dest" (self_variables x24) = Some (VDict x6)) as Hdest.
  { rewrite H25, H19, H12, lookup_set. exact H21. }
  clear H0 H1 H2 H3 H4 H5 H6 H8 H9 H10 H11.
  exists variables, tags.
  destruct (Builder.dry_run self) eqn:Hdry.
  - apply bind_val in H. destruct H as (? & s1 & Hrep & H).
    injection H as <- <-. apply dry_run_report_val in Hrep.
    destruct Hrep as (evs & Hl & He & Hi & Hv).
    exists (pre ++ evs). rewrite Hl, Hlog, <- app_assoc.
    split; [reflexivity|]. split; [apply in_or_app; now left|].
    split; [exact Hrender|]. split.
    { exists x6. rewrite Hv. split; assumption. }
    split.
    + rewrite engine_calls_app, Hquiet, He. split; [reflexivity|].
      apply in_or_app. now right.
    + intros Hnone. rewrite (render_tags_no_candidates _ _ _ _ _ _ Hnone) in Hrender.
      now injection Hrender.
  - destruct tags as [|tag tags'] eqn:Htags.
    + apply bind_val in H. destruct H as (? & s1 & Hp & H).
      injection H as <- <-. apply emit_val in Hp. destruct Hp as [Hl Hv].
      exists (pre ++ [Print (skip_message source_tag)]).
      rewrite Hl, Hlog, <- app_assoc.
      split; [reflexivity|]. split; [apply in_or_app; now left|].
      split; [exact Hrender|]. split.
      { exists x6. rewrite Hv. split; assumption. }
      split; [|reflexivity].
      rewrite engine_calls_app, Hquiet. split; [reflexivity|].
      split; [|reflexivity]. apply in_or_app. right. now left.
    + apply bind_val in H. destruct H as (image_id & s1 & Hbi & H).
      apply bind_val in H. destruct H as (? & s2 & Hget & H).
      apply bind_val in H. destruct H as (? & s3 & Htag & H).
      injection H as <- <-.
      apply build_image_log in Hbi. destruct Hbi as (evs & Hl1 & He1 & Hv1).
      apply emit_val in Hget. destruct Hget as [Hl2 Hv2].
      destruct (tag_image_log image_id repository (tag :: tags') s2)
        as (s3' & Et & Hl3 & Hv3).
      rewrite Et in Htag. assert (s3 = s3') as -> by congruence.
      eexists (pre ++ evs ++ [ImagesGet image_id]
                   ++ map (ImageTag image_id repository) (tag :: tags')).
      rewrite Hl3, Hl2, Hl1, Hlog, <- !app_assoc.
      split; [reflexivity|]. split; [apply in_or_app; now left|].
      split; [exact Hrender|]. split.
      { exists x6. rewrite Hv3, Hv2, Hv1. split; assumption. }
      split.
      * eexists _, image_id. split; [|reflexivity].
        assert (forall l, engine_calls (map (ImageTag image_id repository) l)
                          = map (ImageTag image_id repository) l) as Htags'.
        { clear. induction l as [|t l IH]; cbn; [reflexivity|].
          f_equal. exact IH. }
        rewrite !engine_calls_app, Hquiet, He1, Htags'. reflexivity.
      * intros Hnone.
        rewrite (render_tags_no_candidates _ _ _ _ _ _ Hnone) in Hrender.
        discriminate.
Qed.
End Override.

Example untagged_build_made : finished untagged_build = true /\
  map fst (Build.variants (the_build untagged_build)) = ["."; "1.0"].
Proof. split; reflexivity. Qed.

(** ** Where the candidates of an override variant come from *)

Lemma add_variants_init (w : World) variants_dir root_template variables tags
      (names : list string) :
  forall acc variants,
    Build.add_variants w variants_dir root_template variables tags names acc
    = Val variants ->
    forall key v,
      Dict.lookup key variants = Some v ->
      Dict.lookup key acc = Some v \/
      BuildVariant.init w (path_join variants_dir key) (Some "image-build.yml")
                        root_template "Dockerfile.j2" variables tags = Val v.
Proof.
  induction names as [|name rest IH]; intros acc variants H key v Hl.
  - cbn in H. injection H as <-. now left.
  - cbn [Build.add_variants] in H.
    destruct (isdir w (path_join variants_dir name)); [|exact (IH _ _ H _ _ Hl)].
    destruct (BuildVariant.init _ _ _ _ _ _ _) as [v0| |] eqn:Ei;
      try discriminate.
    cbn [res_bind] in H. destruct (IH _ _ H _ _ Hl) as [Hacc|Hinit].
    + rewrite lookup_set in Hacc.
      destruct (String.eqb_spec key name) as [->|_]; [|now left].
      injection Hacc as <-. now right.
    + now right.
Qed.

(** An override variant is constructed from the build-level tag
    definitions and the configuration file of its directory. *)
Lemma Build_init_variant (w : World) (name : string) (source : dict)
      (root_dir variants_dir namespace template_file : string)
      (variables : dict) (tags : list dict) (b : Build.t)
      (key : string) (v : BuildVariant.t) :
  Build.init w name source root_dir variants_dir namespace template_file
             variables tags = Val b ->
  key <> "."%string ->
  Dict.lookup key (Build.variants b) = Some v ->
  exists root_template,
    BuildVariant.init w (path_join (Build.variants_dir b) key)
                      (Some "image-build.yml") root_template "Dockerfile.j2"
                      variables tags = Val v.
Proof.
  intros H Hne Hl. unfold Build.init in H.
  destruct (Dict.lookup "name" _) as [[| | |sn| |]|]; try discriminate.
  destruct (Dict.lookup "tags" _) as [[| | | |l|]|]; try discriminate.
  destruct (strings_of l) as [source_tags|]; [|discriminate].
  assert (forall primary,
             res_bind (BuildVariant.init w "." None None template_file
                                         variables tags)
               (fun root =>
                  res_bind (Build.add_variants
                              w (path_join root_dir variants_dir)
                              (BuildVariant.template root) variables tags
                              source_tags [(".", root)])
                    (fun variants =>
                       Val {| Build.name := name;
                              Build.namespace := namespace;
                              Build.source_name := sn;
                              Build.source_tags := source_tags;
                              Build.source_primary := primary;
                              Build.root_dir := root_dir;
                              Build.variants_dir :=
                                path_join root_dir variants_dir;
                              Build.variants := variants |})) = Val b ->
             exists root_template,
               BuildVariant.init w (path_join (Build.variants_dir b) key)
                                 (Some "image-build.yml") root_template
                                 "Dockerfile.j2" variables tags = Val v)
    as Hgo.
  { intros primary Hb.
    destruct (BuildVariant.init w "." None None template_file variables tags)
      as [root| |]; try discriminate. cbn [res_bind] in Hb.
    destruct (Build.add_variants _ _ _ _ _ _ _) as [vs| |] eqn:Ev;
      try discriminate. cbn [res_bind] in Hb. injection Hb as <-.
    cbn [Build.variants Build.variants_dir] in *.
    destruct (add_variants_init _ _ _ _ _ _ _ _ Ev _ _ Hl) as [Hacc|Hinit].
    - cbn in Hacc. destruct (String.eqb_spec key "."); [contradiction|].
      discriminate.
    - now exists (BuildVariant.template root). }
  destruct (Dict.lookup "primary" _) as [[| | |p| |]|]; try discriminate.
  - exact (Hgo _ H).
  - destruct source_tags as [|first more]; [discriminate|]. exact (Hgo _ H).
Qed.

Lemma collect_tags_length (defs : list dict) :
  forall acc self_tags,
    collect_tags defs acc = Val self_tags ->
    List.length acc <= List.length self_tags /\
    (defs <> [] -> self_tags <> []).
Proof.
  induction defs as [|tag rest IH]; intros acc self_tags H.
  - cbn in H. injection H as <-. split; [lia|congruence].
  - cbn [collect_tags] in H.
    destruct (TagCandidate_kw tag) as [c| |]; try discriminate.
    cbn [res_bind] in H.
    destruct (tag_template tag) as [key| |]; try discriminate.
    cbn [res_bind] in H. destruct (IH _ _ H) as [Hlen _].
    assert (1 <= List.length (Dict.set key c acc)) as Hset.
    { unfold Dict.set. destruct (Dict.mem key acc) eqn:E.
      - unfold Dict.mem in E. destruct acc as [|kv acc']; [discriminate|].
        assert (List.length (Dict.replace key c (kv :: acc'))
                = List.length (kv :: acc')) as ->; [|cbn; lia].
        rewrite <- (length_map fst), keys_replace, length_map. reflexivity.
      - rewrite length_app. cbn. lia. }
    split; [|intros _ ->; cbn in Hlen; lia].
    assert (List.length acc <= List.length (Dict.set key c acc)); [|lia].
    unfold Dict.set. destruct (Dict.mem key acc).
    + rewrite <- (length_map fst (Dict.replace key c acc)), keys_replace,
        length_map. lia.
    + rewrite length_app. lia.
Qed.

(** C5, amended.  When the source tag has an override variant and the
    turn of the loop completes, the destination tags are the ones the
    override variant rendered, from the variable set in force at that
    call, and what the root variant rendered is not used: they are what
    [_dest.tags] holds, what a dry run prints and, in a real run, the
    tags given to the image built, each once and in order; when they are
    empty the engine is not called and, in a real run, the message that
    no destination tag applies is printed.  The candidates of the
    override variant are not only those of its own configuration file:
    [Build] constructs it with the build-level tag definitions, which
    come first, followed by those of its file; so it is without
    candidate only when the build has no tag definition and its
    configuration file has none. *)
Theorem override_tags_replace (w : World) (fuel : nat) (self : Builder.t)
        (name : string) (source : dict)
        (root_dir variants_dir namespace template_file : string)
        (build_variables : dict) (build_tags : list dict) (build : Build.t)
        (timestamp repository source_tag : string)
        (root_excludes : list string) (has_applicable_tags : bool)
        (variant : BuildVariant.t) (s s' : state) (r : list string * bool) :
  Build.init w name source root_dir variants_dir namespace template_file
             build_variables build_tags = Val build ->
  source_tag <> "."%string ->
  Dict.lookup source_tag (Build.variants build) = Some variant ->
  config_wf w (path_join (Build.variants_dir build) source_tag)
            (Some "image-build.yml") = true ->
  Builder.source_tag_body w fuel self build timestamp repository source_tag
                          root_excludes has_applicable_tags s = (Val r, s') ->
  (exists variables tags events,
      log s' = log s ++ events /\
      In (RenderTags source_tag variables) events /\
      BuildVariant.render_tags w fuel variant variables (Builder.select self)
        (String.eqb source_tag (Build.source_primary build)) = Val tags /\
      (exists dest,
          Dict.lookup "_dest" (self_variables s') = Some (VDict dest) /\
          Dict.lookup "tags" dest = Some (VList (map VStr tags))) /\
      (if Builder.dry_run self then
         engine_calls events = [] /\ In (Print (Builder.indent tags)) events
       else
         match tags with
         | [] =>
             engine_calls events = [] /\
             In (Print (skip_message source_tag)) events /\
             snd r = has_applicable_tags
         | _ :: _ =>
             exists context image_id,
               engine_calls events =
                 EngineBuild context :: ImagesGet image_id
                   :: map (ImageTag image_id repository) tags /\
               snd r = true
         end))
  /\ Dict.keys (BuildVariant.tags variant)
     = keep_first
         (map template
              (declared_candidates
                 w (path_join (Build.variants_dir build) source_tag)
                 (Some "image-build.yml") build_tags))
  /\ (forall t,
         Dict.lookup t (BuildVariant.tags variant)
         = last_with t (declared_candidates
                          w (path_join (Build.variants_dir build) source_tag)
                          (Some "image-build.yml") build_tags))
  /\ (BuildVariant.tags variant = [] <->
      build_tags = [] /\
      config_definitions w (path_join (Build.variants_dir build) source_tag)
                         (Some "image-build.yml") = []).
Proof.
  intros Hbuild Hne Hov Hwf Hrun.
  destruct (Build_init_variant _ _ _ _ _ _ _ _ _ _ _ _ Hbuild Hne Hov)
    as (root_template & Hinit).
  pose proof (init_collect _ _ _ _ _ _ _ _ Hinit Hwf) as Hc.
  destruct (init_candidates _ _ _ _ _ _ _ _ Hinit Hwf) as (Hk & Hl & _).
  split; [|split; [exact Hk|split; [exact Hl|]]].
  - destruct (override_turn w fuel self build timestamp repository source_tag
                root_excludes has_applicable_tags variant s s' r Hov Hrun)
      as (variables & tags & events & H1 & H2 & H3 & H4 & H5 & _).
    exists variables, tags, events. repeat split; assumption.
  - split.
    + intros Hnil. rewrite Hnil in Hc.
      destruct (collect_tags_length _ _ _ Hc) as [_ Hne'].
      destruct build_tags as [|tag rest].
      * split; [reflexivity|].
        destruct (config_definitions _ _ _) as [|d ds]; [reflexivity|].
        exfalso. apply Hne'; [discriminate|reflexivity].
      * exfalso. apply Hne'; [discriminate|reflexivity].
    + intros [-> Hnone]. rewrite Hnone in Hc. cbn in Hc. now injection Hc.
Qed.

Example negating_build_made : finished negating_build = true /\
  map fst (Build.variants (the_build negating_build)) = ["."; "1.0"].
Proof. split; reflexivity. Qed.

(** The root variant renders the tag [1.0] for the source tag [1.0];
    the override variant, whose configuration negates the candidate,
    renders none, and nothing is built. *)
Lemma override_tags_replace_witness :
  exists r s' variables events,
    Builder.source_tag_body negating_world 2 real_run
      (the_build negating_build) "20170101000000" "image-build/app" "1.0"
      [] false (initial_state [])
    = (Val r, s') /\
    log s' = events /\
    In (RenderTags "1.0" variables) events /\
    BuildVariant.render_tags negating_world 2
      (variant_named "." (the_build negating_build)) variables None true
    = Val ["1.0"%string] /\
    BuildVariant.render_tags negating_world 2
      (variant_named "1.0" (the_build negating_build)) variables None true
    = Val [] /\
    engine_calls events = [] /\
    In (Print (skip_message "1.0")) events.
Proof.
  destruct (Builder.source_tag_body negating_world 2 real_run
              (the_build negating_build) "20170101000000" "image-build/app"
              "1.0" [] false (initial_state [])) as [[r| |] s'] eqn:E;
    try (vm_compute in E; discriminate).
  destruct (override_tags_replace
              negating_world 2 real_run "app" example_source "" "variants"
              "image-build" "Dockerfile.j2" []
              [[("template", VStr "{{ _source.tag }}")]]
              (the_build negating_build) "20170101000000" "image-build/app"
              "1.0" [] false
              (variant_named "1.0" (the_build negating_build))
              (initial_state []) s' r eq_refl)
    as ((variables & tags & events & Hl & Hin & Hr & _ & Hpub) & _);
    [discriminate|reflexivity|reflexivity|exact E|].
  exists r, s', variables, events.
  split; [reflexivity|]. split; [exact Hl|]. split; [exact Hin|].
  assert (variables
          = [("_source", VDict [("name", VStr "alpine"); ("tag", VStr "1.0");
                                ("primary", VBool true)]);
             ("_dest", VDict [("name", VStr "app");
                              ("namespace", VStr "image-build");
                              ("tags", VList [VStr "1.0"])]);
             ("_timestamp", VStr "20170101000000")]) as Hv.
  { vm_compute in E. injection E as _ Es. subst s'. cbn in Hl.
    cbn in Hin. subst events. cbn in Hin.
    repeat (destruct Hin as [Hin|Hin]; [try discriminate Hin|]);
      [|contradiction].
    now injection Hin as <-. }
  subst variables. split; [reflexivity|].
  assert (tags = []) as Ht.
  { vm_compute in Hr. now injection Hr as <-. }
  subst tags. split; [reflexivity|].
  cbn in Hpub. destruct Hpub as (Hq & Hp & _). split; assumption.
Defined.

(** The example of the specification: the manifest declares the tag
    [{{ _source.tag }}] and [variants/1.0] has no configuration file.
    The override variant has the build-level candidate: for the source
    tag [1.0] it renders the tag [1.0], the image is built and
    tagged, and no message is printed that no destination applies. *)
Lemma override_without_config_builds :
  Dict.keys (BuildVariant.tags (variant_named "1.0" (the_build inheriting_build)))
  = ["{{ _source.tag }}"%string] /\
  engine_calls
    (log (snd (Builder.source_tag_body
                 variant_world 2 real_run (the_build inheriting_build)
                 "20170101000000" "image-build/app" "1.0" [] false
                 (initial_state []))))
  = [EngineBuild [DockerfileMember "FROM alpine:1.0 # 1.0"];
     ImagesGet "0123abcd";
     ImageTag "0123abcd" "image-build/app" "1.0"] /\
  ~ In (Print (skip_message "1.0"))
       (log (snd (Builder.source_tag_body
                    variant_world 2 real_run (the_build inheriting_build)
                    "20170101000000" "image-build/app" "1.0" [] false
                    (initial_state [])))).
Proof.
  split; [reflexivity|]. split; [reflexivity|].
  vm_compute. intuition discriminate.
Qed.

(** ** The variable set across the turns of the loop *)

Example tagged_build_made : finished tagged_build = true /\
  map fst (Build.variants (the_build tagged_build)) = ["."; "1.0"].
Proof. split; reflexivity. Qed.

(** [build_variables = self.variables] gives the loop the Builder's own
    dict, not a copy of it: what one turn stores there is still there in
    the next, and in the next Build. *)
Lemma set_variable_persists key v s :
  Dict.lookup key (self_variables (snd (set_variable key v s))) = Some v.
Proof. cbn. rewrite lookup_set. now rewrite String.eqb_refl. Qed.

(** Whatever runs only appends to the log. *)
Lemma grows_ret {A} (a : A) : grows (ret a).
Proof. intros s. exists []. cbn. now rewrite app_nil_r. Qed.

Lemma grows_raise {A} (e : exn) : grows (@raise A e).
Proof. intros s. exists []. cbn. now rewrite app_nil_r. Qed.

Lemma grows_lift {A} (r : res A) : grows (lift r).
Proof. intros s. exists []. cbn. now rewrite app_nil_r. Qed.

Lemma grows_bind {A B} (m : M A) (k : A -> M B) :
  grows m -> (forall a, grows (k a)) -> grows (bind m k).
Proof.
  intros Hm Hk s. unfold bind. destruct (Hm s) as [e1 H1].
  destruct (m s) as [[a|e|] s']; cbn in *; try (now exists e1).
  destruct (Hk a s') as [e2 H2]. exists (e1 ++ e2).
  now rewrite H2, H1, app_assoc.
Qed.

Lemma grows_emit (e : event) : grows (emit e).
Proof. intros s. now exists [e]. Qed.

Lemma grows_print (text : string) : grows (print text).
Proof. apply grows_emit. Qed.

Lemma grows_get_variables : grows get_variables.
Proof. intros s. exists []. cbn. now rewrite app_nil_r. Qed.

Lemma grows_set_variable key v : grows (set_variable key v).
Proof. intros s. exists []. cbn. now rewrite app_nil_r. Qed.

Lemma grows_files_default w variant : grows (files_default w variant).
Proof.
  intros s. unfold files_default.
  destruct (BuildVariant.files w variant (files_defaults s)).
  exists []. cbn. now rewrite app_nil_r.
Qed.

Lemma grows_set_dest_tags tags : grows (set_dest_tags tags).
Proof.
  unfold set_dest_tags. apply grows_bind; [apply grows_get_variables|].
  intros variables. destruct (Dict.lookup "_dest" variables) as [[]|];
    first [apply grows_set_variable | apply grows_raise].
Qed.

Lemma grows_build_image w ctx : grows (build_image w ctx).
Proof.
  intros s. destruct (build_image w ctx s) as [r s'] eqn:E.
  destruct (build_image_log _ _ _ _ _ E) as (evs & Hl & _). now exists evs.
Qed.

Lemma grows_tag_image image_id repository tags :
  grows (Builder.tag_image image_id repository tags).
Proof.
  intros s. destruct (tag_image_log image_id repository tags s)
    as (s' & E & Hl & _).
  rewrite E. eexists. exact Hl.
Qed.

Create HintDb grows.
#[local] Hint Resolve grows_ret grows_raise grows_lift grows_emit grows_print
  grows_get_variables grows_set_variable grows_files_default
  grows_set_dest_tags grows_build_image grows_tag_image : grows.

Ltac grows_step :=
  first [ solve [auto with grows]
        | apply grows_bind; [|intros ?]
        | match goal with
          | |- grows (match ?x with _ => _ end) => destruct x
          | |- grows (if ?x then _ else _) => destruct x
          end ].

(** Each turn of the loop starts from the variables the turn before left
    in [self.variables]: the variable set handed to the rendering of the
    root tags is that dict with [_source], [_dest] and [_timestamp]
    assigned, and nothing else touched. *)
Lemma turn_starts_from_previous_variables (w : World) (fuel : nat)
      (self : Builder.t) (build : Build.t) (timestamp repository : string)
      (source_tag : string) (root_excludes : list string)
      (has_applicable_tags : bool) (s s' : state) (r : list string * bool) :
  Builder.source_tag_body w fuel self build timestamp repository source_tag
                          root_excludes has_applicable_tags s = (Val r, s') ->
  exists rest,
    log s' =
    log s ++
    RenderTags "."
      (Dict.set "_timestamp" (VStr timestamp)
         (Dict.set "_dest"
            (VDict [("name", VStr (Build.name build));
                    ("namespace", VStr (Build.namespace build))])
            (Dict.set "_source"
               (VDict [("name", VStr (Build.source_name build));
                       ("tag", VStr source_tag);
                       ("primary",
                        VBool (String.eqb source_tag
                                          (Build.source_primary build)))])
               (self_variables s))))
    :: rest.
Proof.
  intros H. unfold Builder.source_tag_body in H.
  do 5 (apply bind_val in H; destruct H as (? & ? & ? & H)).
  repeat match goal with
         | E : set_variable _ _ _ = (Val _, _) |- _ =>
             apply set_variable_val in E; destruct E as [? ?]
         | E : Builder.variant_of _ _ _ = (Val _, _) |- _ =>
             apply variant_of_val in E; subst
         | E : Builder.call_render_tags _ _ _ _ _ _ _ = (Val _, _) |- _ =>
             apply call_render_tags_val in E; destruct E as (? & ? & ?)
         end.
  match type of H with
  | ?m ?s0 = _ =>
      assert (grows m) as Hg;
        [|destruct (Hg s0) as [evs Hevs]; rewrite H in Hevs; cbn [snd] in Hevs]
  end.
  { unfold Builder.call_render_dockerfile, Builder.call_render_tags,
      Builder.dry_run_report.
    repeat grows_step. }
  exists evs. rewrite Hevs.
  repeat match goal with
         | E : log _ = _ |- _ => rewrite E; clear E
         end.
  repeat match goal with
         | E : self_variables _ = _ |- _ => rewrite E; clear E
         end.
  rewrite <- app_assoc. reflexivity.
Qed.

(** C6 (the code departs from it).  With source tags [1.0] and [2.0] and
    an override directory for [1.0] only, the variable set handed to the
    rendering of the root tags in the turn of [2.0] still holds the
    [_base] that the turn of [1.0] stored: the Dockerfile rendered for
    [1.0]. *)
Theorem stale_base_visible :
  exists variables,
    In (RenderTags "." variables)
       (log (snd (Builder.build variant_world 3
                    (dry_run_of (the_build tagged_build))
                    (initial_state [])))) /\
    Dict.lookup "_source" variables
    = Some (VDict [("name", VStr "alpine"); ("tag", VStr "2.0");
                   ("primary", VBool false)]) /\
    Dict.lookup "_base" variables = Some (VStr "FROM alpine:1.0").
Proof.
  eexists. split; [|split].
  - vm_compute. do 15 right. left. reflexivity.
  - reflexivity.
  - reflexivity.
Qed.

(** ** The exclusion list of [files] *)

Example listing_build_made : finished listing_build = true /\
  map fst (Build.variants (the_build listing_build)) = ["."; "1.0"; "2.0"].
Proof. split; reflexivity. Qed.

(** [files] always lengthens the list object it is given. *)
Lemma files_extends_exclude (w : World) (self : BuildVariant.t)
      (exclude : list string) :
  exists added,
    snd (BuildVariant.files w self exclude) = exclude ++ added /\ added <> [].
Proof.
  unfold BuildVariant.files. cbn [snd].
  destruct (read_lines w _) as [lines|];
    destruct (BuildVariant.config_file self) as [[|c f]|];
    rewrite <- ?app_assoc; eexists; (split; [reflexivity|]); cbn; discriminate.
Qed.

(** C7 (the code departs from it).  [files] appends to the list it is
    given: the caller's list is changed by the call.  The list that is
    the default value of [exclude] is one object for all calls: after
    [files()] on the variant of [1.0], whose [.dockerignore] names
    [data], [files()] on the variant of [2.0] leaves [data] out of its
    own context, which it would hold if it were called first. *)
Theorem files_shares_exclusions :
  let v1 := variant_named "1.0" (the_build listing_build) in
  let v2 := variant_named "2.0" (the_build listing_build) in
  snd (BuildVariant.files listing_world v2 ["notes.txt"])
  = ["notes.txt"; "image-build.yml"; "Dockerfile.j2"]
  /\ fst (files_default listing_world v2 (initial_state []))
     = Val ["data"; "run.sh"]
  /\ fst (files_default listing_world v2
            (snd (files_default listing_world v1 (initial_state []))))
     = Val ["run.sh"]
  /\ files_defaults (snd (files_default listing_world v1 (initial_state [])))
     = ["image-build.yml"; "Dockerfile.j2"; "data"].
Proof. repeat split. Qed.
